(** * Movie-Web-API: the aggregation, ranking and deduplication engine

    A shallow embedding of [services/omdb.go] (with the parts of
    [handlers/handlers.go] that map service results to HTTP statuses)
    and the properties of its dedup/rank utility and its two pipelines.

    Layout: Go library models, data model, the service functions inside
    a section that abstracts the Go runtime pieces the service calls
    (HTTP client, JSON decoder, [strconv.ParseFloat], [sort.Slice],
    [strings.ToLower], [strings.EqualFold]), executable stand-ins for
    those pieces, then the theorems. *)

From Stdlib Require Import ZArith String Ascii List Bool Lia.
From Stdlib Require Import Permutation Sorted DecimalString DecimalPos.
From Stdlib Require Import SpecFloat.
From stdpp Require Import base gmap strings list sorting.

Local Open Scope Z_scope.

(** ** Go values *)

(** A Go [error] is represented by its message, the string [Error()]
    returns: the handlers tell errors apart by that message. *)
Definition error := string.

(** [float64]: IEEE 754 binary64 values, without NaN payloads. *)
Definition float64 := spec_float.

Definition prec64 : Z := 53.
Definition emax64 : Z := 1024.

Definition f64_zero : float64 := S754_zero false.

(** Go's [a > b] on float64; false as soon as one side is NaN. *)
Definition f64_gt (a b : float64) : bool := SFltb b a.

(** ** package strings *)

Module strings.

Fixpoint HasPrefix (s prefix : string) : bool :=
  match prefix, s with
  | EmptyString, _ => true
  | String c p, String d s' => Ascii.eqb c d && HasPrefix s' p
  | String _ _, EmptyString => false
  end.

(** [strings.Contains(s, substr)]: substr occurs in s as a run of bytes. *)
Fixpoint Contains (s substr : string) : bool :=
  HasPrefix s substr
  || match s with
     | EmptyString => false
     | String _ s' => Contains s' substr
     end.

(** The scan of [strings.Split] for a non-empty separator: [skip]
    counts the separator bytes still to be dropped after a match,
    [cur] is the field being read. *)
Fixpoint splitScan (sep s : string) (skip : nat) (cur : string) : list string :=
  match s with
  | EmptyString => [cur]
  | String c s' =>
      match skip with
      | S k => splitScan sep s' k cur
      | O =>
          if HasPrefix s sep
          then cur :: splitScan sep s' (Nat.pred (String.length sep)) EmptyString
          else splitScan sep s' O (cur +:+ String c EmptyString)
      end
  end.

Fixpoint explode (s : string) : list string :=
  match s with
  | EmptyString => []
  | String c s' => String c EmptyString :: explode s'
  end.

(** [strings.Split(s, sep)]. With an empty separator Go splits after
    each UTF-8 sequence; here after each byte. *)
Definition Split (s sep : string) : list string :=
  match sep with
  | EmptyString => explode s
  | _ => splitScan sep s O EmptyString
  end.

Definition lowerByte (c : ascii) : ascii :=
  let n := nat_of_ascii c in
  if (65 <=? n)%nat && (n <=? 90)%nat then ascii_of_nat (n + 32) else c.

(** [strings.ToLower] on ASCII text: the letters A-Z are folded, every
    other byte is kept. *)
Fixpoint ToLowerASCII (s : string) : string :=
  match s with
  | EmptyString => EmptyString
  | String c s' => String (lowerByte c) (ToLowerASCII s')
  end.

(** [strings.EqualFold] on ASCII text. *)
Definition EqualFoldASCII (s t : string) : bool :=
  String.eqb (ToLowerASCII s) (ToLowerASCII t).

End strings.

(** ** package strconv *)

Module strconv.

Definition Itoa (n : Z) : string := NilZero.string_of_int (Z.to_int n).

(** [strconv.Quote] on text that needs no escaping. *)
Definition Quote (s : string) : string :=
  String (ascii_of_nat 34) s +:+ String (ascii_of_nat 34) EmptyString.

(** The messages of a [*strconv.NumError]. *)
Definition ErrSyntax (fn s : string) : error :=
  "strconv." +:+ fn +:+ ": parsing " +:+ Quote s +:+ ": invalid syntax".
Definition ErrRange (fn s : string) : error :=
  "strconv." +:+ fn +:+ ": parsing " +:+ Quote s +:+ ": value out of range".

Definition isDigit (c : ascii) : bool :=
  let n := nat_of_ascii c in (48 <=? n)%nat && (n <=? 57)%nat.

Definition digitVal (c : ascii) : Z := Z.of_nat (nat_of_ascii c) - 48.

(** The decimal digits of [s] up to its end or its first dot: the
    integer they spell, how many there are, and what follows. *)
Fixpoint readDigits (s : string) (mant : Z) (count : nat) : Z * nat * string :=
  match s with
  | String c s' =>
      if isDigit c then readDigits s' (10 * mant + digitVal c) (S count)
      else (mant, count, s)
  | EmptyString => (mant, count, s)
  end.

(** [special]: the spellings of infinity and NaN, in any letter case;
    only infinity takes a sign. *)
Definition special (s : string) : option float64 :=
  let low := strings.ToLowerASCII s in
  if String.eqb low "nan" then Some S754_nan
  else if String.eqb low "inf" || String.eqb low "+inf"
          || String.eqb low "infinity" || String.eqb low "+infinity"
  then Some (S754_infinity false)
  else if String.eqb low "-inf" || String.eqb low "-infinity"
  then Some (S754_infinity true)
  else None.

(** mant / 10^frac, rounded to the nearest binary64, ties to even. *)
Definition decimalToFloat64 (neg : bool) (mant : Z) (frac : nat) : float64 :=
  match mant with
  | Zpos m =>
      SFdiv prec64 emax64 (S754_finite neg m 0)
            (S754_finite false (Z.to_pos (10 ^ Z.of_nat frac)) 0)
  | _ => S754_zero neg
  end.

(** [strconv.ParseFloat(s, 64)] on the special values and on decimal
    literals [sign digits . digits] written without exponent, base
    prefix or underscores (the shapes a rating field takes); any other
    text is reported as a syntax error with value 0. The second
    component is Go's [err], [None] for nil. *)
Definition ParseFloat (s : string) : float64 * option error :=
  match special s with
  | Some f => (f, None)
  | None =>
      let '(neg, body) :=
        match s with
        | String "-" r => (true, r)
        | String "+" r => (false, r)
        | _ => (false, s)
        end in
      let '(ip, ni, rest) := readDigits body 0 O in
      let '(mant, nf, rest') :=
        match rest with
        | String "." r => readDigits r ip O
        | _ => (ip, O, rest)
        end in
      match rest', (ni + nf)%nat with
      | EmptyString, S _ =>
          let f := decimalToFloat64 neg mant nf in
          match f with
          | S754_infinity _ => (f, Some (ErrRange "ParseFloat" s))
          | _ => (f, None)
          end
      | _, _ => (f64_zero, Some (ErrSyntax "ParseFloat" s))
      end
  end.

End strconv.

(** ** package sort *)

Module sort.

Section Insertion.
Context {A : Type}.
Variable less : A -> A -> bool.

(** One run of the inner loop of [insertionSortLessFunc]:
    [for j := i; j > a && less(j, j-1); j-- { swap(j, j-1) }].
    [left] holds data[a..i-1] from the right end to the left, [x] is
    the element that started at index i. The result is the new
    data[a..i], again right to left, with the comparator calls made. *)
Fixpoint sink (x : A) (left : list A) : list A * list (A * A) :=
  match left with
  | [] => ([x], [])
  | y :: left' =>
      if less x y
      then let '(r, calls) := sink x left' in (y :: r, (x, y) :: calls)
      else (x :: y :: left', [(x, y)])
  end.

(** The outer loop [for i := a + 1; i < b; i++]. *)
Fixpoint outer (left : list A) (right : list A) (calls : list (A * A))
  : list A * list (A * A) :=
  match right with
  | [] => (rev left, calls)
  | x :: right' =>
      let '(left', c) := sink x left in
      outer left' right' (calls ++ c)
  end.

(** Insertion sort as the Go runtime runs it, with the list of
    comparator calls [(data[j], data[j-1])] in the order made. *)
Definition insertionSortTraced (data : list A) : list A * list (A * A) :=
  match data with
  | [] => ([], [])
  | x :: rest => outer [x] rest []
  end.

(** [sort.Slice] on a slice of at most 12 elements: the runtime
    (pdqsort) hands such a slice to insertion sort at once. *)
Definition SliceShort (data : list A) : list A :=
  fst (insertionSortTraced data).

End Insertion.

End sort.

(** ** package models *)

(** The fields of [models.OMDbResponse] the service layer reads; the
    remaining fields of the upstream record are only copied through by
    the detail handlers. *)
Record OMDbResponse := {
  Title : string;
  Year : string;
  Genre : string;
  Director : string;
  Actors : string;
  Plot : string;
  ImdbRating : string;
  Response : string
}.

Record MovieBrief := {
  mb_Title : string;
  mb_Year : string;
  mb_ImdbRating : string;
  mb_Genre : string;
  mb_Director : string;
  mb_Plot : string
}.

Record MovieLevel := {
  Level : Z;
  Description : string;
  Movies : list MovieBrief
}.

Record RecommendationResponse := {
  FavoriteMovie : MovieBrief;
  Recommendations : list MovieLevel
}.

Record SearchResult := {
  sr_Title : string;
  sr_Year : string;
  sr_ImdbID : string
}.

Record SearchResponse := {
  Search : list SearchResult;
  sr_Response : string
}.

Record GenreMoviesResponse := {
  gm_Genre : string;
  gm_Movies : list MovieBrief;
  gm_Total : Z
}.

Record ErrorResponse := {
  er_Error : string;
  er_Message : string;
  er_Code : Z
}.

(** The [models.MovieBrief] literal both resolvers build from a detail
    record. *)
Definition briefOf (d : OMDbResponse) : MovieBrief :=
  {| mb_Title := Title d; mb_Year := Year d; mb_ImdbRating := ImdbRating d;
     mb_Genre := Genre d; mb_Director := Director d; mb_Plot := Plot d |}.

(** ** The upstream provider *)

(** [url.Values] as the service fills it: keys with one value each, in
    the order of the [Add] calls. *)
Definition Values := list (string * string).

(** A request URL, [fmt.Sprintf("%s?%s", s.BaseURL, params.Encode())],
    kept as its two parts. *)
Record URL := { base : string; query : Values }.

(** What [s.Client.Get] followed by [io.ReadAll] gives: either call can
    fail, otherwise the body. *)
Inductive HttpResult :=
| GetFailed (err : error)
| ReadFailed (err : error)
| Body (body : string).

Record OMDbService := { APIKey : string; BaseURL : string }.

Definition seenBefore (seen : gmap string bool) (key : string) : bool :=
  default false (seen !! key).

(** ** package services *)

Section Services.

(** *** The Go runtime, as the service sees it *)

Variable ToLower : string -> string.
Variable EqualFold : string -> string -> bool.
Variable ParseFloat : string -> float64 * option error.
Variable sortSlice :
  (MovieBrief -> MovieBrief -> bool) -> list MovieBrief -> list MovieBrief.

(** The provider: a state [World] that each request may read and change,
    so that it can answer the same URL differently each time. *)
Variable World : Type.
Variable ClientGet : URL -> World -> HttpResult * World.
Variable UnmarshalOMDb : string -> error + OMDbResponse.
Variable UnmarshalSearch : string -> error + SearchResponse.

(** *** Dedup/rank utility *)

Definition canonicalKey (movie : MovieBrief) : string :=
  ToLower (mb_Title movie +:+ mb_Year movie).

(** The comparator both [sort.Slice] calls pass: the parse errors are
    discarded, the values compared with [>]. *)
Definition ratingLess (a b : MovieBrief) : bool :=
  let '(ratingI, _) := ParseFloat (mb_ImdbRating a) in
  let '(ratingJ, _) := ParseFloat (mb_ImdbRating b) in
  f64_gt ratingI ratingJ.

(** [rating, err := strconv.ParseFloat(...); err == nil && rating > 0] *)
Definition validRating (movie : MovieBrief) : bool :=
  let '(rating, err) := ParseFloat (mb_ImdbRating movie) in
  match err with
  | None => f64_gt rating f64_zero
  | Some _ => false
  end.

Fixpoint filterLoop (targetGenre : string) (movies : list MovieBrief)
    (seen : gmap string bool) (unique : list MovieBrief) : list MovieBrief :=
  match movies with
  | [] => unique
  | movie :: rest =>
      let key := canonicalKey movie in
      if negb (seenBefore seen key)
         && strings.Contains (ToLower (mb_Genre movie)) (ToLower targetGenre)
      then
        if validRating movie
        then filterLoop targetGenre rest (<[key := true]> seen) (unique ++ [movie])
        else filterLoop targetGenre rest seen unique
      else filterLoop targetGenre rest seen unique
  end.

Definition removeDuplicatesAndFilter (movies : list MovieBrief)
    (targetGenre : string) : list MovieBrief :=
  filterLoop targetGenre movies ∅ [].

Fixpoint limitLoop (limit : Z) (movies : list MovieBrief)
    (seen : gmap string bool) (unique : list MovieBrief) : list MovieBrief :=
  match movies with
  | [] => unique
  | movie :: rest =>
      let key := canonicalKey movie in
      if negb (seenBefore seen key)
      then
        if validRating movie
        then
          let seen := <[key := true]> seen in
          let unique := unique ++ [movie] in
          if Z.of_nat (length unique) >=? limit
          then unique
          else limitLoop limit rest seen unique
        else limitLoop limit rest seen unique
      else limitLoop limit rest seen unique
  end.

Definition removeDuplicatesAndLimit (movies : list MovieBrief) (limit : Z)
    : list MovieBrief :=
  let movies := sortSlice ratingLess movies in
  limitLoop limit movies ∅ [].

(** *** Requests against the provider *)

(** The state a pipeline run threads: the provider, and the URLs
    requested so far, oldest first. *)
Record State := { world : World; requests : list URL }.

Definition M (A : Type) : Type := State -> A * State.

Definition ret {A : Type} (a : A) : M A := fun st => (a, st).

Definition bind {A B : Type} (m : M A) (k : A -> M B) : M B :=
  fun st => let '(a, st') := m st in k a st'.

Notation "'let*' x := m 'in' k" := (bind m (fun x => k))
  (at level 10, x name, m at level 100, k at level 200).

(** [s.Client.Get(reqURL)] and [io.ReadAll(resp.Body)]. *)
Definition httpGet (u : URL) : M HttpResult :=
  fun st =>
    let '(r, w) := ClientGet u (world st) in
    (r, {| world := w; requests := requests st ++ [u] |}).

Definition makeRequest (s : OMDbService) (params : Values)
    : M (error + OMDbResponse) :=
  let reqURL := {| base := BaseURL s; query := params |} in
  let* r := httpGet reqURL in
  match r with
  | GetFailed err => ret (inl ("failed to make request: " +:+ err))
  | ReadFailed err => ret (inl ("failed to read response: " +:+ err))
  | Body body =>
      match UnmarshalOMDb body with
      | inl err => ret (inl ("failed to parse response: " +:+ err))
      | inr omdbResp => ret (inr omdbResp)
      end
  end.

Definition GetMovieByTitle (s : OMDbService) (title : string)
    : M (error + OMDbResponse) :=
  let params := [("apikey", APIKey s); ("t", title); ("type", "movie")] in
  makeRequest s params.

(** The free-text search both resolvers start with; [inr] carries the
    decoded response. *)
Definition searchRequest (s : OMDbService) (searchTerm : string)
    : M (error + SearchResponse) :=
  let params := [("apikey", APIKey s); ("s", searchTerm); ("type", "movie")] in
  let reqURL := {| base := BaseURL s; query := params |} in
  let* r := httpGet reqURL in
  match r with
  | GetFailed err => ret (inl err)
  | ReadFailed err => ret (inl err)
  | Body body =>
      match UnmarshalSearch body with
      | inl err => ret (inl err)
      | inr searchResp => ret (inr searchResp)
      end
  end.

(** *** Candidate resolver *)

(** [for _, result := range searchResp.Search] of [searchMovies]. *)
Fixpoint resolveHits (s : OMDbService) (targetGenre : string)
    (hits : list SearchResult) (movies : list MovieBrief) : M (list MovieBrief) :=
  match hits with
  | [] => ret movies
  | result :: rest =>
      let* r := GetMovieByTitle s (sr_Title result) in
      match r with
      | inl _ => resolveHits s targetGenre rest movies
      | inr movieDetails =>
          if String.eqb (Response movieDetails) "False"
          then resolveHits s targetGenre rest movies
          else if strings.Contains (ToLower (Genre movieDetails)) (ToLower targetGenre)
          then resolveHits s targetGenre rest (movies ++ [briefOf movieDetails])
          else resolveHits s targetGenre rest movies
      end
  end.

Definition searchMovies (s : OMDbService) (searchTerm targetGenre : string)
    : M (error + list MovieBrief) :=
  let* r := searchRequest s searchTerm in
  match r with
  | inl err => ret (inl err)
  | inr searchResp =>
      if String.eqb (sr_Response searchResp) "False"
      then ret (inr [])
      else
        let* movies := resolveHits s targetGenre (Search searchResp) [] in
        ret (inr movies)
  end.

(** [for _, result := range searchResp.Search] of
    [searchMoviesForRecommendation]. *)
Fixpoint resolveHitsExcluding (s : OMDbService) (excludeTitle : string)
    (hits : list SearchResult) (movies : list MovieBrief) : M (list MovieBrief) :=
  match hits with
  | [] => ret movies
  | result :: rest =>
      if EqualFold (sr_Title result) excludeTitle
      then resolveHitsExcluding s excludeTitle rest movies
      else
        let* r := GetMovieByTitle s (sr_Title result) in
        match r with
        | inl _ => resolveHitsExcluding s excludeTitle rest movies
        | inr movieDetails =>
            if String.eqb (Response movieDetails) "False"
            then resolveHitsExcluding s excludeTitle rest movies
            else resolveHitsExcluding s excludeTitle rest
                   (movies ++ [briefOf movieDetails])
        end
  end.

Definition searchMoviesForRecommendation (s : OMDbService)
    (searchTerm excludeTitle : string) : M (error + list MovieBrief) :=
  let* r := searchRequest s searchTerm in
  match r with
  | inl err => ret (inl err)
  | inr searchResp =>
      if String.eqb (sr_Response searchResp) "False"
      then ret (inr [])
      else
        let* movies := resolveHitsExcluding s excludeTitle (Search searchResp) [] in
        ret (inr movies)
  end.

(** *** Genre ranking pipeline *)

Definition currentYear : Z := 2024.

(** The values [year] takes in [for year := hi; year >= lo; year--]. *)
Definition countDown (hi lo : Z) : list Z :=
  map (fun i => hi - Z.of_nat i) (seq 0 (Z.to_nat (hi - lo + 1))).

Definition searchTerms (genre : string) : list string :=
  let searchTerms := [genre; genre +:+ " movie"; "best " +:+ genre] in
  searchTerms
    ++ map (fun year => genre +:+ " " +:+ strconv.Itoa year)
           (countDown currentYear (currentYear - 10)).

(** [for _, term := range searchTerms] of [SearchMoviesByGenre]. *)
Fixpoint termLoop (s : OMDbService) (genre : string) (terms : list string)
    (allMovies : list MovieBrief) : M (list MovieBrief) :=
  match terms with
  | [] => ret allMovies
  | term :: rest =>
      let* r := searchMovies s term genre in
      match r with
      | inl _ => termLoop s genre rest allMovies
      | inr movies =>
          let allMovies := allMovies ++ movies in
          if Z.of_nat (length allMovies) >=? 50
          then ret allMovies
          else termLoop s genre rest allMovies
      end
  end.

Definition SearchMoviesByGenre (s : OMDbService) (genre : string)
    : M (error + list MovieBrief) :=
  let* allMovies := termLoop s genre (searchTerms genre) [] in
  let uniqueMovies := removeDuplicatesAndFilter allMovies genre in
  let uniqueMovies := sortSlice ratingLess uniqueMovies in
  let uniqueMovies :=
    if Z.of_nat (length uniqueMovies) >? 15
    then take 15 uniqueMovies
    else uniqueMovies in
  ret (inr uniqueMovies).

(** *** Recommendation pipeline *)

(** [for _, genre := range genres] *)
Fixpoint genreTier (s : OMDbService) (favoriteTitle : string)
    (genres : list string) (level1Movies : list MovieBrief) : M (list MovieBrief) :=
  match genres with
  | [] => ret level1Movies
  | genre :: rest =>
      let* r := searchMoviesForRecommendation s genre favoriteTitle in
      match r with
      | inl _ => genreTier s favoriteTitle rest level1Movies
      | inr movies => genreTier s favoriteTitle rest (level1Movies ++ movies)
      end
  end.

(** [director != "N/A" && director != ""], and the same test on actors *)
Definition named (value : string) : bool :=
  negb (String.eqb value "N/A") && negb (String.eqb value "").

(** [for _, director := range directors] *)
Fixpoint directorTier (s : OMDbService) (favoriteTitle : string)
    (directors : list string) (level2Movies : list MovieBrief) : M (list MovieBrief) :=
  match directors with
  | [] => ret level2Movies
  | director :: rest =>
      if named director
      then
        let* r := searchMoviesForRecommendation s director favoriteTitle in
        match r with
        | inl _ => directorTier s favoriteTitle rest level2Movies
        | inr movies => directorTier s favoriteTitle rest (level2Movies ++ movies)
        end
      else directorTier s favoriteTitle rest level2Movies
  end.

(** [for i, actor := range actors] *)
Fixpoint actorTier (s : OMDbService) (favoriteTitle : string) (i : Z)
    (actors : list string) (level3Movies : list MovieBrief) : M (list MovieBrief) :=
  match actors with
  | [] => ret level3Movies
  | actor :: rest =>
      if i >=? 2
      then ret level3Movies
      else if named actor
      then
        let* r := searchMoviesForRecommendation s actor favoriteTitle in
        match r with
        | inl _ => actorTier s favoriteTitle (i + 1) rest level3Movies
        | inr movies => actorTier s favoriteTitle (i + 1) rest (level3Movies ++ movies)
        end
      else actorTier s favoriteTitle (i + 1) rest level3Movies
  end.

(** [if len(levelMovies) > 0 { response.Recommendations = append(...) }] *)
Definition appendTier (recommendations : list MovieLevel) (level : Z)
    (description : string) (movies : list MovieBrief) : list MovieLevel :=
  if Z.of_nat (length movies) >? 0
  then recommendations
         ++ [{| Level := level; Description := description; Movies := movies |}]
  else recommendations.

Definition GetMovieRecommendations (s : OMDbService) (favoriteTitle : string)
    : M (error + RecommendationResponse) :=
  let* r := GetMovieByTitle s favoriteTitle in
  match r with
  | inl err => ret (inl err)
  | inr favoriteMovie =>
      if String.eqb (Response favoriteMovie) "False"
      then ret (inl ("movie not found: " +:+ favoriteTitle))
      else
        let recommendations := [] in
        let genres := strings.Split (Genre favoriteMovie) ", " in
        let* level1Movies := genreTier s favoriteTitle genres [] in
        let level1Movies := removeDuplicatesAndLimit level1Movies 20 in
        let recommendations :=
          appendTier recommendations 1 "Movies in the same genre" level1Movies in
        let directors := strings.Split (Director favoriteMovie) ", " in
        let* level2Movies := directorTier s favoriteTitle directors [] in
        let level2Movies := removeDuplicatesAndLimit level2Movies 20 in
        let recommendations :=
          appendTier recommendations 2 "Movies by the same director" level2Movies in
        let actors := strings.Split (Actors favoriteMovie) ", " in
        let* level3Movies := actorTier s favoriteTitle 0 actors [] in
        let level3Movies := removeDuplicatesAndLimit level3Movies 20 in
        let recommendations :=
          appendTier recommendations 3 "Movies with the same main actors" level3Movies in
        ret (inr {| FavoriteMovie := briefOf favoriteMovie;
                    Recommendations := recommendations |})
  end.

(** ** package handlers *)

(** What a handler writes with [c.JSON(status, body)]. *)
Inductive Reply :=
| ReplyError (status : Z) (body : ErrorResponse)
| ReplyGenre (status : Z) (body : GenreMoviesResponse)
| ReplyRecommendations (status : Z) (body : RecommendationResponse).

Definition statusOf (r : Reply) : Z :=
  match r with
  | ReplyError status _ => status
  | ReplyGenre status _ => status
  | ReplyRecommendations status _ => status
  end.

Definition StatusOK : Z := 200.
Definition StatusBadRequest : Z := 400.
Definition StatusNotFound : Z := 404.
Definition StatusInternalServerError : Z := 500.

Definition errorReply (status : Z) (err message : string) : Reply :=
  ReplyError status {| er_Error := err; er_Message := message; er_Code := status |}.

(** [MovieHandler.GetMoviesByGenre], from the [genre] query parameter. *)
Definition MovieHandler_GetMoviesByGenre (s : OMDbService) (genre : string) : M Reply :=
  if String.eqb genre ""
  then ret (errorReply StatusBadRequest "Bad Request" "Genre parameter is required")
  else
    let* r := SearchMoviesByGenre s genre in
    match r with
    | inl _ =>
        ret (errorReply StatusInternalServerError "Internal Server Error"
                        "Failed to fetch movies by genre")
    | inr movies =>
        if Z.of_nat (length movies) =? 0
        then ret (errorReply StatusNotFound "Not Found"
                             "No movies found for the specified genre")
        else ret (ReplyGenre StatusOK
                    {| gm_Genre := genre; gm_Movies := movies;
                       gm_Total := Z.of_nat (length movies) |})
    end.

(** [MovieHandler.GetMovieRecommendations], from the [favorite_movie]
    query parameter. *)
Definition MovieHandler_GetMovieRecommendations (s : OMDbService) (favoriteMovie : string)
    : M Reply :=
  if String.eqb favoriteMovie ""
  then ret (errorReply StatusBadRequest "Bad Request"
                       "favorite_movie parameter is required")
  else
    let* r := GetMovieRecommendations s favoriteMovie in
    match r with
    | inl err =>
        if String.eqb err ("movie not found: " +:+ favoriteMovie)
        then ret (errorReply StatusNotFound "Not Found" "Favorite movie not found")
        else ret (errorReply StatusInternalServerError "Internal Server Error"
                             "Failed to generate recommendations")
    | inr recommendations => ret (ReplyRecommendations StatusOK recommendations)
    end.

End Services.

(** ** What the theorems speak about *)

(** The canonical key in the words of the specification: the lowercased
    title followed by the lowercased year. *)
Definition specKey (ToLower : string -> string) (movie : MovieBrief) : string :=
  ToLower (mb_Title movie) +:+ ToLower (mb_Year movie).

(** A rating that parses: [strconv.ParseFloat] returns a nil error. *)
Definition parses (ParseFloat : string -> float64 * option error)
    (movie : MovieBrief) : bool :=
  match snd (ParseFloat (mb_ImdbRating movie)) with
  | None => true
  | Some _ => false
  end.

(** The float a comparator sees for an item: the first result of
    [ParseFloat], whatever the error. *)
Definition ratingOf (ParseFloat : string -> float64 * option error)
    (movie : MovieBrief) : float64 :=
  fst (ParseFloat (mb_ImdbRating movie)).

(** Go's [a >= b] on float64. *)
Definition f64_ge (a b : float64) : bool := SFleb b a.

(** [movie] was an argument of some comparator call. *)
Definition passedToComparator (calls : list (MovieBrief * MovieBrief))
    (movie : MovieBrief) : Prop :=
  exists other, (movie, other) ∈ calls \/ (other, movie) ∈ calls.

(** Rating monotonicity: each element's rating is [>=] the next one's. *)
Definition ratingsNonIncreasing (ParseFloat : string -> float64 * option error)
    (l : list MovieBrief) : Prop :=
  forall i a b,
    l !! i = Some a -> l !! S i = Some b ->
    f64_ge (ratingOf ParseFloat a) (ratingOf ParseFloat b) = true.

(** No rating in the list parses to NaN. *)
Definition noNaN (ParseFloat : string -> float64 * option error)
    (l : list MovieBrief) : Prop :=
  forall m, m ∈ l -> ratingOf ParseFloat m <> S754_nan.

(** A list in the order a descending [sort.Slice] aims at: no element is
    [less] than one before it. *)
Definition descending {A : Type} (less : A -> A -> bool) : list A -> Prop :=
  StronglySorted (fun a b => less b a = false).

(** The requirement [sort.Interface] puts on [less], on the elements of
    one slice. *)
Definition weakOrderOn {A : Type} (less : A -> A -> bool) (l : list A) : Prop :=
  (forall a b, a ∈ l -> b ∈ l -> less a b = true -> less b a = false) /\
  (forall a b c, a ∈ l -> b ∈ l -> c ∈ l ->
     less a b = false -> less b c = false -> less a c = false).

(** What the service relies on from [sort.Slice]: it only swaps
    elements; it sorts when [less] is an ordering; it leaves a slice
    that is already in order as it is. *)
Definition SortPermutes {A : Type}
    (sortSlice : (A -> A -> bool) -> list A -> list A) : Prop :=
  forall less l, sortSlice less l ≡ₚ l.

Definition SortSorts {A : Type}
    (sortSlice : (A -> A -> bool) -> list A -> list A) : Prop :=
  forall less l, weakOrderOn less l -> descending less (sortSlice less l).

Definition SortKeepsSorted {A : Type}
    (sortSlice : (A -> A -> bool) -> list A -> list A) : Prop :=
  forall less l, descending less l -> sortSlice less l = l.

(** The search term of a request URL, when it is a free-text search. *)
Definition searchTermOf (u : URL) : option string :=
  snd <$> List.find (fun kv => String.eqb (fst kv) "s") (query u).

(** A lookup that gave no record: it failed, or the provider answered
    with success flag "False". *)
Definition unresolved (r : error + OMDbResponse) : Prop :=
  match r with
  | inl _ => True
  | inr movieDetails => Response movieDetails = "False"
  end.

(** The search-term list in the words of the specification, for a run
    in the calendar year [thisYear]: the genre, "genre movie", "best
    genre", then the genre with each of the eleven years from [thisYear]
    down to [thisYear - 10]. *)
Definition specSearchTerms (thisYear : Z) (genre : string) : list string :=
  [genre; genre +:+ " movie"; "best " +:+ genre]
    ++ ((fun i => genre +:+ " " +:+ strconv.Itoa (thisYear - Z.of_nat i))
        <$> seq 0 11).

(** The URLs of the two kinds of request the service makes. *)
Definition lookupURL (s : OMDbService) (title : string) : URL :=
  {| base := BaseURL s;
     query := [("apikey", APIKey s); ("t", title); ("type", "movie")] |}.

Definition searchURL (s : OMDbService) (term : string) : URL :=
  {| base := BaseURL s;
     query := [("apikey", APIKey s); ("s", term); ("type", "movie")] |}.

(** The search terms issued so far, oldest first. *)
Definition issuedTerms {World : Type} (st : State World) : list string :=
  omap searchTermOf (requests World st).

(** ** A scripted provider, for examples *)

Module Demo.

(** The provider answers from a script, one entry per request; with
    the script used up the connection fails. *)
Definition World := list HttpResult.

Definition ClientGet (u : URL) (w : World) : HttpResult * World :=
  match w with
  | [] => (GetFailed "connection refused", [])
  | r :: w' => (r, w')
  end.

Definition heat : OMDbResponse :=
  {| Title := "Heat"; Year := "1995"; Genre := "Crime, Drama";
     Director := "N/A"; Actors := "N/A"; Plot := "A heist.";
     ImdbRating := "8.3"; Response := "True" |}.

Definition ronin : OMDbResponse :=
  {| Title := "Ronin"; Year := "1998"; Genre := "Action, Crime";
     Director := "John Frankenheimer"; Actors := "Robert De Niro, Jean Reno";
     Plot := "A briefcase."; ImdbRating := "7.2"; Response := "True" |}.

Definition notFound : OMDbResponse :=
  {| Title := ""; Year := ""; Genre := ""; Director := ""; Actors := "";
     Plot := ""; ImdbRating := ""; Response := "False" |}.

(** Bodies are named rather than spelled out in JSON. *)
Definition UnmarshalOMDb (body : string) : error + OMDbResponse :=
  if String.eqb body "heat" then inr heat
  else if String.eqb body "ronin" then inr ronin
  else if String.eqb body "not found" then inr notFound
  else inl "unexpected end of JSON input".

Definition UnmarshalSearch (body : string) : error + SearchResponse :=
  if String.eqb body "no results"
  then inr {| Search := []; sr_Response := "False" |}
  else if String.eqb body "one hit"
  then inr {| Search := [{| sr_Title := "Ronin"; sr_Year := "1998";
                            sr_ImdbID := "tt0122690" |}];
              sr_Response := "True" |}
  else inl "unexpected end of JSON input".

Definition service : OMDbService :=
  {| APIKey := "demo"; BaseURL := "http://www.omdbapi.com/" |}.

Definition start (script : World) : State World :=
  {| world := script; requests := [] |}.

Definition movie (title year rating : string) : MovieBrief :=
  {| mb_Title := title; mb_Year := year; mb_ImdbRating := rating;
     mb_Genre := "Drama"; mb_Director := "N/A"; mb_Plot := "" |}.

(** The utility on the executable runtime: ASCII lowercasing, the
    decimal parser, and the insertion sort [sort.Slice] runs on short
    slices. *)
Definition dedupAndBound : list MovieBrief -> Z -> list MovieBrief :=
  removeDuplicatesAndLimit strings.ToLowerASCII strconv.ParseFloat
                           (@sort.SliceShort MovieBrief).

Definition filterAndDedup : list MovieBrief -> string -> list MovieBrief :=
  removeDuplicatesAndFilter strings.ToLowerASCII strconv.ParseFloat.

(** The service against the scripted provider. *)
Definition recommend : string -> M World (error + RecommendationResponse) :=
  GetMovieRecommendations strings.ToLowerASCII strings.EqualFoldASCII
    strconv.ParseFloat (@sort.SliceShort MovieBrief)
    World ClientGet UnmarshalOMDb UnmarshalSearch service.

Definition recommendHandler : string -> M World Reply :=
  MovieHandler_GetMovieRecommendations strings.ToLowerASCII
    strings.EqualFoldASCII strconv.ParseFloat (@sort.SliceShort MovieBrief)
    World ClientGet UnmarshalOMDb UnmarshalSearch service.

Definition searchByGenre : string -> string -> M World (error + list MovieBrief) :=
  searchMovies strings.ToLowerASCII World ClientGet UnmarshalOMDb
    UnmarshalSearch service.

End Demo.

(** An order-preserving image of the float64 values other than NaN in
    triples of integers under the lexicographic order: class (negative
    infinity, negative, zero, positive, positive infinity), then
    exponent, then mantissa. *)
Definition f64_rank (f : float64) : Z * Z * Z :=
  match f with
  | S754_infinity true => (-2, 0, 0)
  | S754_finite true m e => (-1, - e, - Z.pos m)
  | S754_zero _ => (0, 0, 0)
  | S754_finite false m e => (1, e, Z.pos m)
  | S754_infinity false => (2, 0, 0)
  | S754_nan => (3, 0, 0)
  end.

Definition lexLt (p q : Z * Z * Z) : Prop :=
  let '(p1, p2, p3) := p in
  let '(q1, q2, q3) := q in
  p1 < q1 \/ (p1 = q1 /\ (p2 < q2 \/ (p2 = q2 /\ p3 < q3))).

(** ** The rest of the service and of the handlers *)

(** The test of [removeDuplicatesAndFilter] on one item, its key apart:
    the genre field contains the target genre, letter case aside, and the
    rating is valid. *)
Definition genreMatches (ToLower : string -> string) (targetGenre : string)
    (ParseFloat : string -> float64 * option error) (movie : MovieBrief) : bool :=
  strings.Contains (ToLower (mb_Genre movie)) (ToLower targetGenre)
  && validRating ParseFloat movie.

(** The first occurrence of each key, in the order of the list: an item
    is kept, and every later item with its key is dropped. *)
Fixpoint firstOccurrences {A : Type} (key : A -> string) (l : list A) : list A :=
  match l with
  | [] => []
  | x :: l' =>
      x :: List.filter (fun y => negb (String.eqb (key y) (key x)))
             (firstOccurrences key l')
  end.

(** The number the decimal digits [d] spell when read after [acc]. *)
Fixpoint digitsValue (d : Decimal.uint) (acc : Z) : Z :=
  match d with
  | Decimal.Nil => acc
  | Decimal.D0 d => digitsValue d (10 * acc)
  | Decimal.D1 d => digitsValue d (10 * acc + 1)
  | Decimal.D2 d => digitsValue d (10 * acc + 2)
  | Decimal.D3 d => digitsValue d (10 * acc + 3)
  | Decimal.D4 d => digitsValue d (10 * acc + 4)
  | Decimal.D5 d => digitsValue d (10 * acc + 5)
  | Decimal.D6 d => digitsValue d (10 * acc + 6)
  | Decimal.D7 d => digitsValue d (10 * acc + 7)
  | Decimal.D8 d => digitsValue d (10 * acc + 8)
  | Decimal.D9 d => digitsValue d (10 * acc + 9)
  end.

(** [strconv.Atoi] on a 64-bit platform: an optional sign and decimal
    digits, at least one; a value outside of int64 gives the nearest
    bound and a range error. *)
Definition Atoi (s : string) : Z * option error :=
  let '(neg, body) :=
    match s with
    | String "-" r => (true, r)
    | String "+" r => (false, r)
    | _ => (false, s)
    end in
  let '(n, count, rest) := strconv.readDigits body 0 O in
  match rest, count with
  | EmptyString, S _ =>
      if neg
      then if n >? 2 ^ 63
           then (- 2 ^ 63, Some (strconv.ErrRange "Atoi" s))
           else (- n, None)
      else if n >=? 2 ^ 63
           then (2 ^ 63 - 1, Some (strconv.ErrRange "Atoi" s))
           else (n, None)
  | _, _ => (0, Some (strconv.ErrSyntax "Atoi" s))
  end.

Record Rating := { Source : string; Value : string }.

(** [models.OMDbResponse] with the fields the detail handlers read next
    to those the service layer reads. *)
Record OMDbRecord := {
  read : OMDbResponse;
  Country : string;
  Awards : string;
  Ratings : list Rating;
  Error : string;
  Season : string;
  Episode : string
}.

Record MovieDetailsResponse := {
  md_Title : string;
  md_Year : string;
  md_Plot : string;
  md_Country : string;
  md_Awards : string;
  md_Director : string;
  md_Ratings : list Rating
}.

Record EpisodeDetailsResponse := {
  ed_Title : string;
  ed_SeriesTitle : string;
  ed_Season : string;
  ed_Episode : string;
  ed_Year : string;
  ed_Plot : string;
  ed_Director : string;
  ed_Actors : string;
  ed_ImdbRating : string;
  ed_Ratings : list Rating
}.

(** What a detail handler writes with [c.JSON(status, body)]. *)
Inductive DetailReply :=
| DetailError (status : Z) (body : ErrorResponse)
| MovieDetails (status : Z) (body : MovieDetailsResponse)
| EpisodeDetails (status : Z) (body : EpisodeDetailsResponse).

Definition detailStatus (r : DetailReply) : Z :=
  match r with
  | DetailError status _ => status
  | MovieDetails status _ => status
  | EpisodeDetails status _ => status
  end.

Definition detailError (status : Z) (err message : string) : DetailReply :=
  DetailError status {| er_Error := err; er_Message := message; er_Code := status |}.

Section Details.

Variable World : Type.
Variable ClientGet : URL -> World -> HttpResult * World.
(** [json.Unmarshal] into the whole record. *)
Variable UnmarshalRecord : string -> error + OMDbRecord.

Notation "'let*' x := m 'in' k" := (bind World m (fun x => k))
  (at level 10, x name, m at level 100, k at level 200).

(** [makeRequest], with the decoded record kept whole. *)
Definition makeRequestRecord (s : OMDbService) (params : Values)
    : M World (error + OMDbRecord) :=
  let reqURL := {| base := BaseURL s; query := params |} in
  let* r := httpGet World ClientGet reqURL in
  match r with
  | GetFailed err => ret World (inl ("failed to make request: " +:+ err))
  | ReadFailed err => ret World (inl ("failed to read response: " +:+ err))
  | Body body =>
      match UnmarshalRecord body with
      | inl err => ret World (inl ("failed to parse response: " +:+ err))
      | inr omdbResp => ret World (inr omdbResp)
      end
  end.

Definition GetMovieRecordByTitle (s : OMDbService) (title : string)
    : M World (error + OMDbRecord) :=
  let params := [("apikey", APIKey s); ("t", title); ("type", "movie")] in
  makeRequestRecord s params.

Definition GetEpisodeDetails (s : OMDbService) (seriesTitle : string)
    (season episode : Z) : M World (error + OMDbRecord) :=
  let params :=
    [("apikey", APIKey s); ("t", seriesTitle);
     ("Season", strconv.Itoa season); ("Episode", strconv.Itoa episode)] in
  makeRequestRecord s params.

(** [MovieHandler.GetMovieDetails], from the [title] query parameter. *)
Definition MovieHandler_GetMovieDetails (s : OMDbService) (title : string)
    : M World DetailReply :=
  if String.eqb title ""
  then ret World (detailError StatusBadRequest "Bad Request"
                              "Title parameter is required")
  else
    let* r := GetMovieRecordByTitle s title in
    match r with
    | inl _ =>
        ret World (detailError StatusInternalServerError "Internal Server Error"
                               "Failed to fetch movie details")
    | inr movie =>
        if String.eqb (Response (read movie)) "False"
        then ret World (detailError StatusNotFound "Not Found" (Error movie))
        else ret World (MovieDetails StatusOK
               {| md_Title := Title (read movie); md_Year := Year (read movie);
                  md_Plot := Plot (read movie); md_Country := Country movie;
                  md_Awards := Awards movie; md_Director := Director (read movie);
                  md_Ratings := Ratings movie |})
    end.

(** [MovieHandler.GetEpisodeDetails], from the query parameters
    [series_title], [season] and [episode_number]. *)
Definition MovieHandler_GetEpisodeDetails (s : OMDbService)
    (seriesTitle seasonStr episodeStr : string) : M World DetailReply :=
  if String.eqb seriesTitle "" || String.eqb seasonStr ""
     || String.eqb episodeStr ""
  then ret World (detailError StatusBadRequest "Bad Request"
         "series_title, season, and episode_number parameters are required")
  else
    let '(season, err) := Atoi seasonStr in
    match err with
    | Some _ =>
        ret World (detailError StatusBadRequest "Bad Request"
                               "Season must be a valid number")
    | None =>
        let '(episode, err) := Atoi episodeStr in
        match err with
        | Some _ =>
            ret World (detailError StatusBadRequest "Bad Request"
                                   "Episode number must be a valid number")
        | None =>
            let* r := GetEpisodeDetails s seriesTitle season episode in
            match r with
            | inl _ =>
                ret World (detailError StatusInternalServerError
                             "Internal Server Error"
                             "Failed to fetch episode details")
            | inr episodeDetails =>
                if String.eqb (Response (read episodeDetails)) "False"
                then ret World (detailError StatusNotFound "Not Found"
                                            (Error episodeDetails))
                else ret World (EpisodeDetails StatusOK
                       {| ed_Title := Title (read episodeDetails);
                          ed_SeriesTitle := seriesTitle;
                          ed_Season := Season episodeDetails;
                          ed_Episode := Episode episodeDetails;
                          ed_Year := Year (read episodeDetails);
                          ed_Plot := Plot (read episodeDetails);
                          ed_Director := Director (read episodeDetails);
                          ed_Actors := Actors (read episodeDetails);
                          ed_ImdbRating := ImdbRating (read episodeDetails);
                          ed_Ratings := Ratings episodeDetails |})
            end
        end
    end.

End Details.

(** The URL [GetEpisodeDetails] requests. *)
Definition episodeURL (s : OMDbService) (seriesTitle : string)
    (season episode : Z) : URL :=
  {| base := BaseURL s;
     query := [("apikey", APIKey s); ("t", seriesTitle);
               ("Season", strconv.Itoa season);
               ("Episode", strconv.Itoa episode)] |}.

(** *** Start-up *)





(** *** More of the service against the scripted provider *)

Module Sample.

Definition searchForRecommendation
    : string -> string -> M Demo.World (error + list MovieBrief) :=
  searchMoviesForRecommendation strings.EqualFoldASCII Demo.World Demo.ClientGet
    Demo.UnmarshalOMDb Demo.UnmarshalSearch Demo.service.

Definition genreRanking : string -> M Demo.World (error + list MovieBrief) :=
  SearchMoviesByGenre strings.ToLowerASCII strconv.ParseFloat
    (@sort.SliceShort MovieBrief) Demo.World Demo.ClientGet
    Demo.UnmarshalOMDb Demo.UnmarshalSearch Demo.service.

(** A decoder of whole records that knows one body. *)
Definition UnmarshalRecord (body : string) : error + OMDbRecord :=
  if String.eqb body "pilot"
  then inr {| read := {| Title := "Pilot"; Year := "2008"; Genre := "Crime";
                         Director := "Vince Gilligan"; Actors := "Bryan Cranston";
                         Plot := "A diagnosis."; ImdbRating := "9.0";
                         Response := "True" |};
              Country := "United States"; Awards := "N/A"; Ratings := [];
              Error := ""; Season := "1"; Episode := "1" |}
  else inl "unexpected end of JSON input".

Definition episodeHandler : string -> string -> string -> M Demo.World DetailReply :=
  MovieHandler_GetEpisodeDetails Demo.World Demo.ClientGet UnmarshalRecord
    Demo.service.

End Sample.

(** * Properties *)

(** ** The runtime models on sample values *)

Example Split_genre_field :
  strings.Split "Action, Drama, Sci-Fi" ", " = ["Action"; "Drama"; "Sci-Fi"].
Proof. reflexivity. Qed.

Example Split_not_available : strings.Split "N/A" ", " = ["N/A"].
Proof. reflexivity. Qed.

Example Split_empty : strings.Split "" ", " = [""].
Proof. reflexivity. Qed.

(** 7.5 is 8444249301319680 * 2^-50. *)
Example ParseFloat_rating :
  strconv.ParseFloat "7.5" = (S754_finite false 8444249301319680 (-50), None).
Proof. by vm_compute. Qed.

Example ParseFloat_not_available :
  strconv.ParseFloat "N/A" = (f64_zero, Some (strconv.ErrSyntax "ParseFloat" "N/A")).
Proof. by vm_compute. Qed.

Example ParseFloat_empty :
  strconv.ParseFloat "" = (f64_zero, Some (strconv.ErrSyntax "ParseFloat" "")).
Proof. by vm_compute. Qed.

Example ParseFloat_NaN : strconv.ParseFloat "NaN" = (S754_nan, None).
Proof. by vm_compute. Qed.

Example NaN_is_not_ordered :
  f64_gt S754_nan f64_zero = false /\ f64_gt f64_zero S754_nan = false.
Proof. by vm_compute. Qed.

(** Ranking four candidates, two of which differ in letter case only
    and one of which has no rating. *)
Example DedupAndBound_sample :
  mb_Title
    <$> Demo.dedupAndBound
          [Demo.movie "A" "2000" "N/A"; Demo.movie "B" "2001" "7.5";
           Demo.movie "b" "2001" "7.0"; Demo.movie "D" "2001" "9.1"] 20
  = ["D"; "B"].
Proof. by vm_compute. Qed.

(** ** The dedup loops *)

Section UtilityFacts.

Variable ToLower : string -> string.
Variable ParseFloat : string -> float64 * option error.

Local Abbreviation K := (canonicalKey ToLower).
Local Abbreviation valid := (validRating ParseFloat).

Lemma seenBefore_insert (seen : gmap string bool) (k k' : string) :
  seenBefore (<[k := true]> seen) k' = true <->
  k = k' \/ seenBefore seen k' = true.
Proof.
  unfold seenBefore. destruct (decide (k = k')) as [->|Hne].
  - rewrite lookup_insert_eq. simpl. tauto.
  - rewrite lookup_insert_ne by done. split; [tauto | intros [?|?]; done].
Qed.

Lemma seenBefore_empty (k : string) : seenBefore ∅ k = false.
Proof. unfold seenBefore. by rewrite lookup_empty. Qed.

Lemma fresh_key_NoDup (seen : gmap string bool) (unique : list MovieBrief)
    (movie : MovieBrief) :
  NoDup (K <$> unique) ->
  (forall m, m ∈ unique -> seenBefore seen (K m) = true) ->
  seenBefore seen (K movie) = false ->
  NoDup (K <$> (unique ++ [movie])).
Proof.
  intros Hnd Hcov Hfresh. rewrite fmap_app. apply NoDup_app.
  split; [done|]. split; [|apply NoDup_singleton].
  intros k Hk Hk'. apply list_elem_of_singleton in Hk'. subst k.
  apply list_elem_of_fmap in Hk as (m & Heq & Hm).
  specialize (Hcov m Hm). congruence.
Qed.

Lemma covered_step (seen : gmap string bool) (unique : list MovieBrief)
    (movie : MovieBrief) :
  (forall m, m ∈ unique -> seenBefore seen (K m) = true) ->
  forall m, m ∈ unique ++ [movie] ->
       seenBefore (<[K movie := true]> seen) (K m) = true.
Proof.
  intros Hcov m Hm. apply seenBefore_insert.
  apply elem_of_app in Hm as [Hm|Hm]; [right; auto|].
  apply list_elem_of_singleton in Hm. subst. by left.
Qed.

(** The keys of what [limitLoop] returns are pairwise different, as
    long as [seen] records the keys already in [unique]. *)
Lemma limitLoop_keys (limit : Z) (movies : list MovieBrief) :
  forall seen unique,
    NoDup (K <$> unique) ->
    (forall m, m ∈ unique -> seenBefore seen (K m) = true) ->
    NoDup (K <$> limitLoop ToLower ParseFloat limit movies seen unique).
Proof.
  induction movies as [|movie rest IH]; intros seen unique Hnd Hcov; simpl; [done|].
  destruct (seenBefore seen (K movie)) eqn:Hs; simpl; [by apply IH|].
  destruct (valid movie) eqn:Hv; [|by apply IH].
  pose proof (fresh_key_NoDup _ _ _ Hnd Hcov Hs) as Hnd'.
  destruct (_ >=? limit); [done|].
  apply IH; [done|]. by apply covered_step.
Qed.

Lemma filterLoop_keys (targetGenre : string) (movies : list MovieBrief) :
  forall seen unique,
    NoDup (K <$> unique) ->
    (forall m, m ∈ unique -> seenBefore seen (K m) = true) ->
    NoDup (K <$> filterLoop ToLower ParseFloat targetGenre movies seen unique).
Proof.
  induction movies as [|movie rest IH]; intros seen unique Hnd Hcov; simpl; [done|].
  destruct (seenBefore seen (K movie)) eqn:Hs; simpl; [by apply IH|].
  destruct (strings.Contains _ _); [|by apply IH].
  destruct (valid movie) eqn:Hv; [|by apply IH].
  apply IH; [by eapply fresh_key_NoDup | by apply covered_step].
Qed.

(** Both loops extend [unique] by items of [movies], in the order of
    [movies], all with a rating that parses to a positive number. *)
Lemma limitLoop_kept (limit : Z) (movies : list MovieBrief) :
  forall seen unique,
    exists kept,
      limitLoop ToLower ParseFloat limit movies seen unique = unique ++ kept
      /\ kept `sublist_of` movies
      /\ Forall (fun m => valid m = true) kept.
Proof.
  induction movies as [|movie rest IH]; intros seen unique; simpl.
  - exists []. by rewrite app_nil_r.
  - assert (forall seen', exists kept,
               limitLoop ToLower ParseFloat limit rest seen' unique = unique ++ kept
               /\ kept `sublist_of` movie :: rest
               /\ Forall (fun m => valid m = true) kept) as Hskip.
    { intros seen'. destruct (IH seen' unique) as (kept & -> & Hsub & Hval).
      exists kept. split; [done|]. split; [by apply sublist_cons|done]. }
    destruct (seenBefore seen (K movie)); simpl; [apply Hskip|].
    destruct (valid movie) eqn:Hv; [|apply Hskip].
    destruct (_ >=? limit).
    + exists [movie]. split; [done|]. split.
      * apply sublist_skip, sublist_nil_l.
      * by constructor.
    + destruct (IH (<[K movie := true]> seen) (unique ++ [movie]))
        as (kept & -> & Hsub & Hval).
      exists (movie :: kept). rewrite <- app_assoc. split; [done|]. split.
      * by apply sublist_skip.
      * by constructor.
Qed.

Lemma filterLoop_kept (targetGenre : string) (movies : list MovieBrief) :
  forall seen unique,
    exists kept,
      filterLoop ToLower ParseFloat targetGenre movies seen unique = unique ++ kept
      /\ kept `sublist_of` movies
      /\ Forall (fun m => valid m = true) kept.
Proof.
  induction movies as [|movie rest IH]; intros seen unique; simpl.
  - exists []. by rewrite app_nil_r.
  - assert (forall seen', exists kept,
               filterLoop ToLower ParseFloat targetGenre rest seen' unique
               = unique ++ kept
               /\ kept `sublist_of` movie :: rest
               /\ Forall (fun m => valid m = true) kept) as Hskip.
    { intros seen'. destruct (IH seen' unique) as (kept & -> & Hsub & Hval).
      exists kept. split; [done|]. split; [by apply sublist_cons|done]. }
    destruct (negb _ && _); [|apply Hskip].
    destruct (valid movie) eqn:Hv; [|apply Hskip].
    destruct (IH (<[K movie := true]> seen) (unique ++ [movie]))
      as (kept & -> & Hsub & Hval).
    exists (movie :: kept). rewrite <- app_assoc. split; [done|]. split.
    + by apply sublist_skip.
    + by constructor.
Qed.

(** [limitLoop] stops at the first append that brings [unique] to
    [limit] elements or more. *)
Lemma limitLoop_length (limit : Z) (movies : list MovieBrief) :
  forall seen unique,
    Z.of_nat (length (limitLoop ToLower ParseFloat limit movies seen unique))
    <= Z.max limit (Z.of_nat (length unique) + 1).
Proof.
  induction movies as [|movie rest IH]; intros seen unique; simpl; [lia|].
  destruct (seenBefore seen (K movie)); simpl; [apply IH|].
  destruct (valid movie); [|apply IH].
  destruct (_ >=? limit) eqn:Hlim.
  - rewrite length_app. simpl. lia.
  - specialize (IH (<[K movie := true]> seen) (unique ++ [movie])).
    rewrite Z.geb_leb in Hlim. apply Z.leb_gt in Hlim.
    rewrite length_app in *. simpl in *. lia.
Qed.

(** On a list of fresh, pairwise different keys and valid ratings that
    fits under the limit, [limitLoop] keeps everything. *)
Lemma limitLoop_all (limit : Z) (movies : list MovieBrief) :
  forall seen unique,
    NoDup (K <$> movies) ->
    (forall m, m ∈ movies -> seenBefore seen (K m) = false) ->
    Forall (fun m => valid m = true) movies ->
    ((length movies <= 1)%nat
     \/ Z.of_nat (length unique + length movies) - 1 < limit) ->
    limitLoop ToLower ParseFloat limit movies seen unique = unique ++ movies.
Proof.
  induction movies as [|movie rest IH]; intros seen unique Hnd Hfresh Hval Hlen;
    simpl.
  - by rewrite app_nil_r.
  - rewrite (Hfresh movie) by left. simpl.
    inversion Hval as [|? ? Hv Hval']; subst. rewrite Hv.
    rewrite fmap_cons in Hnd. apply NoDup_cons in Hnd as [Hnotin Hnd].
    destruct (_ >=? limit) eqn:Hlim.
    + assert (rest = []) as ->; [|done].
      rewrite Z.geb_leb in Hlim. apply Z.leb_le in Hlim.
      rewrite length_app in Hlim. simpl in *.
      destruct rest; [done|]. simpl in *. lia.
    + rewrite IH, <- app_assoc; [done|done| | done |].
      * intros m Hm. destruct (seenBefore _ (K m)) eqn:Hs; [|done].
        apply seenBefore_insert in Hs as [Heq|Hs].
        -- exfalso. apply Hnotin. rewrite Heq. apply list_elem_of_fmap. eauto.
        -- rewrite Hfresh in Hs; [done|by right].
      * rewrite Z.geb_leb in Hlim. apply Z.leb_gt in Hlim.
        rewrite length_app in *. simpl in *. lia.
Qed.

End UtilityFacts.

(** ** Insertion sort meets what the service relies on *)

Section InsertionFacts.

Context {A : Type}.
Variable less : A -> A -> bool.

Lemma sink_perm (x : A) (left : list A) :
  fst (sort.sink less x left) ≡ₚ x :: left.
Proof.
  induction left as [|y left IH]; simpl; [done|].
  destruct (less x y); [|done].
  destruct (sort.sink less x left) as [r calls]. simpl in *.
  rewrite IH. apply perm_swap.
Qed.

Lemma outer_perm (right : list A) :
  forall left calls,
    fst (sort.outer less left right calls) ≡ₚ rev left ++ right.
Proof.
  induction right as [|x right IH]; intros left calls; simpl.
  - by rewrite app_nil_r.
  - pose proof (sink_perm x left) as Hs.
    destruct (sort.sink less x left) as [left' c]. simpl in Hs.
    rewrite IH, <- (Permutation_rev left'), Hs, <- (Permutation_rev left).
    apply Permutation_middle.
Qed.

Lemma SliceShort_perm (data : list A) : sort.SliceShort less data ≡ₚ data.
Proof.
  destruct data as [|x rest]; [done|].
  unfold sort.SliceShort. simpl. by rewrite outer_perm.
Qed.

Lemma weakOrderOn_subseteq (l l' : list A) :
  l' ⊆ l -> weakOrderOn less l -> weakOrderOn less l'.
Proof.
  intros Hsub [Hasym Hneg]. split.
  - intros a b Ha Hb. apply Hasym; by apply Hsub.
  - intros a b c Ha Hb Hc. apply Hneg; by apply Hsub.
Qed.

(** [left] is kept right to left, so the order to maintain on it is the
    mirror image of [descending]. *)
Local Abbreviation mirrored := (StronglySorted (fun y z => less y z = false)).

Lemma mirrored_rev (left : list A) : mirrored left -> descending less (rev left).
Proof.
  unfold descending.
  induction 1 as [|y left Hs IH Hall]; simpl; [constructor|].
  apply StronglySorted_app_2; [|done|repeat constructor].
  intros x1 x2 Hx1 Hx2. apply list_elem_of_singleton in Hx2. subst x2.
  rewrite Forall_forall in Hall. apply Hall.
  by apply list_elem_of_In, in_rev, list_elem_of_In.
Qed.

Lemma sink_mirrored (x : A) (left : list A) :
  weakOrderOn less (x :: left) -> mirrored left ->
  mirrored (fst (sort.sink less x left)).
Proof.
  intros Hwo Hs. induction Hs as [|y left Hs IH Hall]; simpl.
  - repeat constructor.
  - destruct Hwo as [Hasym Hneg].
    destruct (less x y) eqn:Hxy.
    + pose proof (sink_perm x left) as Hp.
      destruct (sort.sink less x left) as [r calls]. simpl in *.
      constructor.
      * apply IH. eapply weakOrderOn_subseteq; [|by split].
        intros z. rewrite !elem_of_cons. tauto.
      * rewrite Hp. constructor; [|done].
        apply Hasym; [set_solver..|done].
    + simpl. constructor; [by constructor|].
      constructor; [done|].
      rewrite Forall_forall in Hall |- *. intros z Hz.
      apply (Hneg x y z); [set_solver..|done|by apply Hall].
Qed.

Lemma outer_descending (right : list A) :
  forall left calls,
    weakOrderOn less (rev left ++ right) -> mirrored left ->
    descending less (fst (sort.outer less left right calls)).
Proof.
  induction right as [|x right IH]; intros left calls Hwo Hs; simpl.
  - by apply mirrored_rev.
  - assert (forall l : list A, rev l ≡ₚ l) as Hrev
        by (intros l; symmetry; apply Permutation_rev).
    pose proof (sink_perm x left) as Hp.
    pose proof (sink_mirrored x left) as Hm.
    destruct (sort.sink less x left) as [left' c]. simpl in *.
    apply IH.
    + eapply weakOrderOn_subseteq; [|exact Hwo].
      intros z. rewrite !elem_of_app, !Hrev, Hp, !elem_of_cons. tauto.
    + apply Hm; [|done].
      eapply weakOrderOn_subseteq; [|exact Hwo].
      intros z. rewrite !elem_of_app, !Hrev, !elem_of_cons. tauto.
Qed.

(** Insertion sort sorts, for a comparator that is an ordering on the
    elements at hand. *)
Lemma SliceShort_sorts (data : list A) :
  weakOrderOn less data -> descending less (sort.SliceShort less data).
Proof.
  intros Hwo. destruct data as [|x rest]; [constructor|].
  unfold sort.SliceShort. simpl. apply outer_descending; [done|].
  repeat constructor.
Qed.

Lemma outer_keeps (right : list A) :
  forall left calls,
    descending less (rev left ++ right) ->
    fst (sort.outer less left right calls) = rev left ++ right.
Proof.
  induction right as [|x right IH]; intros left calls Hd; simpl.
  - by rewrite app_nil_r.
  - assert (fst (sort.sink less x left) = x :: left) as Hsink.
    { destruct left as [|y left]; simpl; [done|].
      simpl in Hd. rewrite <- app_assoc in Hd.
      apply StronglySorted_app_1_r in Hd.
      inversion Hd as [|? ? _ Hall]; subst.
      inversion Hall as [|? ? Hyx _]; subst. by rewrite Hyx. }
    destruct (sort.sink less x left) as [left' c]. simpl in Hsink. subst left'.
    rewrite IH; simpl; rewrite <- app_assoc; done.
Qed.

(** Insertion sort leaves a slice that is in order as it is. *)
Lemma SliceShort_keeps (data : list A) :
  descending less data -> sort.SliceShort less data = data.
Proof.
  intros Hd. destruct data as [|x rest]; [done|].
  unfold sort.SliceShort. simpl. by rewrite outer_keeps.
Qed.

(** *** The comparator calls of insertion sort *)

Lemma sink_first_call (x y : A) (left : list A) :
  (x, y) ∈ snd (sort.sink less x (y :: left)).
Proof.
  simpl. destruct (less x y); [|by left].
  destruct (sort.sink less x left). by left.
Qed.

Lemma sink_nonempty (x : A) (left : list A) :
  fst (sort.sink less x left) <> [].
Proof.
  destruct left as [|y left]; simpl; [done|].
  destruct (less x y); [|done]. by destruct (sort.sink less x left).
Qed.

Lemma outer_calls_kept (right : list A) :
  forall left calls c,
    c ∈ calls -> c ∈ snd (sort.outer less left right calls).
Proof.
  induction right as [|x right IH]; intros left calls c Hc; simpl; [done|].
  destruct (sort.sink less x left) as [left' c']. apply IH. set_solver.
Qed.

Lemma outer_calls_right (right : list A) :
  forall left calls x,
    left <> [] -> x ∈ right ->
    exists y, (x, y) ∈ snd (sort.outer less left right calls).
Proof.
  induction right as [|x' right IH]; intros left calls x Hne Hx; simpl.
  - by apply elem_of_nil in Hx.
  - pose proof (sink_nonempty x' left) as Hne'.
    destruct left as [|y left]; [done|].
    pose proof (sink_first_call x' y left) as Hfirst.
    destruct (sort.sink less x' (y :: left)) as [left' c]. simpl in *.
    apply elem_of_cons in Hx as [->|Hx].
    + exists y. apply outer_calls_kept. set_solver.
    + by apply IH.
Qed.

(** On a slice of two elements or more, every element is handed to
    the comparator. *)
Lemma insertionSort_compares_all (data : list A) (x : A) :
  (2 <= length data)%nat -> x ∈ data ->
  exists other,
    (x, other) ∈ snd (sort.insertionSortTraced less data)
    \/ (other, x) ∈ snd (sort.insertionSortTraced less data).
Proof.
  intros Hlen Hx. destruct data as [|x0 [|x1 rest]]; simpl in Hlen; [lia..|].
  unfold sort.insertionSortTraced.
  apply elem_of_cons in Hx as [->|Hx].
  - exists x1. right. simpl.
    destruct (less x1 x0); apply outer_calls_kept; by left.
  - destruct (outer_calls_right (x1 :: rest) [x0] [] x) as [y Hy]; [done..|].
    exists y. by left.
Qed.

End InsertionFacts.

(** ** The order of float64 *)

Lemma SFcompare_finite (s1 s2 : bool) (m1 m2 : positive) (e1 e2 : Z) :
  SFcompare (S754_finite s1 m1 e1) (S754_finite s2 m2 e2) =
  Some match s1, s2 with
       | true, false => Lt
       | false, true => Gt
       | false, false =>
           match e1 ?= e2 with Lt => Lt | Gt => Gt | Eq => (m1 ?= m2)%positive end
       | true, true =>
           match e1 ?= e2 with
           | Lt => Gt | Gt => Lt | Eq => CompOpp (m1 ?= m2)%positive
           end
       end.
Proof. reflexivity. Qed.

Lemma SFltb_rank (a b : float64) :
  a <> S754_nan -> b <> S754_nan ->
  (SFltb a b = true <-> lexLt (f64_rank a) (f64_rank b)).
Proof.
  intros Ha Hb. unfold SFltb.
  destruct a as [[]|[]| |[] ma ea], b as [[]|[]| |[] mb eb];
    try congruence; try rewrite SFcompare_finite;
    cbn [SFcompare f64_rank lexLt];
    try (destruct (Z.compare_spec ea eb); try destruct (Pos.compare_spec ma mb);
         cbn [CompOpp]);
    (split; [intros; try discriminate; lia | intros; try reflexivity; lia]).
Qed.

Lemma SFleb_rank (a b : float64) :
  a <> S754_nan -> b <> S754_nan ->
  (SFleb a b = true <-> ~ lexLt (f64_rank b) (f64_rank a)).
Proof.
  intros Ha Hb. unfold SFleb.
  destruct a as [[]|[]| |[] ma ea], b as [[]|[]| |[] mb eb];
    try congruence; try rewrite SFcompare_finite;
    cbn [SFcompare f64_rank lexLt];
    try (destruct (Z.compare_spec ea eb); try destruct (Pos.compare_spec ma mb);
         cbn [CompOpp]);
    (split; [intros; try discriminate; lia | intros; try reflexivity; lia]).
Qed.

Lemma nan_or_not (a : float64) : a = S754_nan \/ a <> S754_nan.
Proof. destruct a; [right|right|left|right]; done. Qed.

Lemma SFltb_nan_l (a : float64) : SFltb S754_nan a = false.
Proof. reflexivity. Qed.

Lemma SFltb_nan_r (a : float64) : SFltb a S754_nan = false.
Proof. by destruct a as [[]|[]| |[]]. Qed.

Lemma lexLt_asym (p q : Z * Z * Z) : lexLt p q -> ~ lexLt q p.
Proof. destruct p as [[? ?] ?], q as [[? ?] ?]. simpl. lia. Qed.

Lemma lexLt_negtrans (p q r : Z * Z * Z) :
  ~ lexLt q p -> ~ lexLt r q -> ~ lexLt r p.
Proof. destruct p as [[? ?] ?], q as [[? ?] ?], r as [[? ?] ?]. simpl. lia. Qed.

Lemma f64_gt_not_nan (a b : float64) :
  f64_gt a b = true -> a <> S754_nan /\ b <> S754_nan.
Proof.
  unfold f64_gt. intros H. split; intros ->.
  - by rewrite SFltb_nan_r in H.
  - by rewrite SFltb_nan_l in H.
Qed.

Lemma f64_gt_asym (a b : float64) : f64_gt a b = true -> f64_gt b a = false.
Proof.
  intros H. destruct (f64_gt_not_nan _ _ H) as [Ha Hb]. unfold f64_gt in *.
  apply SFltb_rank in H; [|done..].
  apply not_true_is_false. rewrite SFltb_rank by done. by apply lexLt_asym.
Qed.

(** [>] loses transitivity of "not greater" only through NaN. *)
Lemma f64_gt_negtrans (a b c : float64) :
  b <> S754_nan ->
  f64_gt a b = false -> f64_gt b c = false -> f64_gt a c = false.
Proof.
  intros Hb Hab Hbc. unfold f64_gt in *.
  destruct (nan_or_not a) as [->|Ha]; [apply SFltb_nan_r|].
  destruct (nan_or_not c) as [->|Hc]; [apply SFltb_nan_l|].
  apply not_true_iff_false in Hab, Hbc. apply not_true_iff_false.
  rewrite SFltb_rank in * by done.
  eapply lexLt_negtrans; [exact Hab|exact Hbc].
Qed.

Lemma f64_ge_not_gt (a b : float64) :
  a <> S754_nan -> b <> S754_nan -> f64_ge a b = negb (f64_gt b a).
Proof.
  intros Ha Hb. unfold f64_ge, f64_gt.
  destruct (SFltb a b) eqn:Hlt; simpl.
  - apply not_true_is_false. rewrite SFleb_rank by done.
    apply SFltb_rank in Hlt; [|done..]. tauto.
  - apply not_true_iff_false in Hlt. rewrite SFltb_rank in Hlt by done.
    by apply SFleb_rank.
Qed.

(** ** Ranked sets *)

Section RankedSets.

Variable ToLower : string -> string.
Variable ParseFloat : string -> float64 * option error.
Variable sortSlice :
  (MovieBrief -> MovieBrief -> bool) -> list MovieBrief -> list MovieBrief.

Local Abbreviation K := (canonicalKey ToLower).
Local Abbreviation valid := (validRating ParseFloat).
Local Abbreviation less := (ratingLess ParseFloat).
Local Abbreviation dedupAndBound :=
  (removeDuplicatesAndLimit ToLower ParseFloat sortSlice).
Local Abbreviation filterAndDedup :=
  (removeDuplicatesAndFilter ToLower ParseFloat).

Lemma ratingLess_eq (a b : MovieBrief) :
  less a b = f64_gt (ratingOf ParseFloat a) (ratingOf ParseFloat b).
Proof.
  unfold ratingLess, ratingOf.
  by destruct (ParseFloat (mb_ImdbRating a)), (ParseFloat (mb_ImdbRating b)).
Qed.

Lemma validRating_eq (m : MovieBrief) :
  valid m = parses ParseFloat m && f64_gt (ratingOf ParseFloat m) f64_zero.
Proof.
  unfold validRating, parses, ratingOf.
  by destruct (ParseFloat (mb_ImdbRating m)) as [rating [err|]].
Qed.

Lemma valid_not_nan (m : MovieBrief) :
  valid m = true -> ratingOf ParseFloat m <> S754_nan.
Proof.
  rewrite validRating_eq. intros [_ H]%andb_true_iff.
  by apply f64_gt_not_nan in H as [? _].
Qed.

(** Without NaN the comparator is an ordering. *)
Lemma ratingLess_weakOrder (l : list MovieBrief) :
  noNaN ParseFloat l -> weakOrderOn less l.
Proof.
  intros Hnan. split.
  - intros a b _ _. rewrite !ratingLess_eq. apply f64_gt_asym.
  - intros a b c _ Hb _. rewrite !ratingLess_eq.
    apply f64_gt_negtrans. by apply Hnan.
Qed.

Lemma descending_sublist {A : Type} (lt : A -> A -> bool) (l' l : list A) :
  l' `sublist_of` l -> descending lt l -> descending lt l'.
Proof.
  unfold descending. induction 1 as [|x l1 l2 Hsub IH|x l1 l2 Hsub IH];
    intros Hd; [done|..].
  - apply StronglySorted_cons in Hd as [Hall Hd].
    apply StronglySorted_cons. split; [|by apply IH].
    rewrite Forall_forall in Hall |- *. intros y Hy.
    apply Hall. by eapply elem_of_sublist.
  - apply StronglySorted_cons in Hd as [_ Hd]. by apply IH.
Qed.

Lemma descending_adjacent {A : Type} (lt : A -> A -> bool) (l : list A) :
  descending lt l ->
  forall i a b, l !! i = Some a -> l !! S i = Some b -> lt b a = false.
Proof.
  unfold descending. induction 1 as [|x l Hd IH Hall]; intros i a b Ha Hb.
  - by rewrite lookup_nil in Ha.
  - destruct i as [|i]; simpl in *.
    + injection Ha as <-. rewrite Forall_forall in Hall.
      apply Hall. by eapply list_elem_of_lookup_2.
    + by eapply IH.
Qed.

Lemma descending_monotone (l : list MovieBrief) :
  noNaN ParseFloat l -> descending less l -> ratingsNonIncreasing ParseFloat l.
Proof.
  intros Hnan Hd i a b Ha Hb.
  pose proof (descending_adjacent _ _ Hd i a b Ha Hb) as Hlt.
  rewrite ratingLess_eq in Hlt.
  rewrite f64_ge_not_gt, Hlt; [done|..];
    apply Hnan; by eapply list_elem_of_lookup_2.
Qed.

(** *** What the utility returns, whatever [sort.Slice] does *)

Lemma removeDuplicatesAndLimit_keys (movies : list MovieBrief) (limit : Z) :
  NoDup (K <$> dedupAndBound movies limit).
Proof.
  unfold removeDuplicatesAndLimit. apply limitLoop_keys; [constructor|].
  intros m Hm. by apply elem_of_nil in Hm.
Qed.

Lemma removeDuplicatesAndFilter_keys (movies : list MovieBrief) (genre : string) :
  NoDup (K <$> filterAndDedup movies genre).
Proof.
  unfold removeDuplicatesAndFilter. apply filterLoop_keys; [constructor|].
  intros m Hm. by apply elem_of_nil in Hm.
Qed.

Lemma removeDuplicatesAndLimit_kept (movies : list MovieBrief) (limit : Z) :
  dedupAndBound movies limit `sublist_of` sortSlice less movies
  /\ Forall (fun m => valid m = true) (dedupAndBound movies limit).
Proof.
  unfold removeDuplicatesAndLimit.
  destruct (limitLoop_kept ToLower ParseFloat limit (sortSlice less movies) ∅ [])
    as (kept & -> & Hsub & Hval).
  done.
Qed.

Lemma removeDuplicatesAndFilter_kept (movies : list MovieBrief) (genre : string) :
  filterAndDedup movies genre `sublist_of` movies
  /\ Forall (fun m => valid m = true) (filterAndDedup movies genre).
Proof.
  unfold removeDuplicatesAndFilter.
  destruct (filterLoop_kept ToLower ParseFloat genre movies ∅ [])
    as (kept & -> & Hsub & Hval).
  done.
Qed.

(** The bound holds for every limit from 1 on. *)
Lemma removeDuplicatesAndLimit_bound (movies : list MovieBrief) (limit : Z) :
  1 <= limit -> Z.of_nat (length (dedupAndBound movies limit)) <= limit.
Proof.
  intros Hlimit. unfold removeDuplicatesAndLimit.
  pose proof (limitLoop_length ToLower ParseFloat limit
                (sortSlice less movies) ∅ []) as H.
  simpl in H. lia.
Qed.

(** *** With a [sort.Slice] that sorts, and ratings free of NaN *)

Lemma removeDuplicatesAndLimit_monotone (movies : list MovieBrief) (limit : Z) :
  SortPermutes sortSlice -> SortSorts sortSlice ->
  noNaN ParseFloat movies ->
  ratingsNonIncreasing ParseFloat (dedupAndBound movies limit).
Proof.
  intros Hperm Hsorts Hnan.
  destruct (removeDuplicatesAndLimit_kept movies limit) as [Hsub _].
  apply descending_monotone.
  - intros m Hm. apply Hnan. rewrite <- (Hperm less movies).
    by eapply elem_of_sublist.
  - eapply descending_sublist; [exact Hsub|].
    apply Hsorts. by apply ratingLess_weakOrder.
Qed.

Lemma removeDuplicatesAndLimit_idempotent (movies : list MovieBrief) (limit : Z) :
  SortPermutes sortSlice -> SortSorts sortSlice -> SortKeepsSorted sortSlice ->
  noNaN ParseFloat movies ->
  dedupAndBound (dedupAndBound movies limit) limit = dedupAndBound movies limit.
Proof.
  intros Hperm Hsorts Hkeeps Hnan.
  destruct (removeDuplicatesAndLimit_kept movies limit) as [Hsub Hval].
  pose proof (removeDuplicatesAndLimit_keys movies limit) as Hkeys.
  assert (Z.of_nat (length (dedupAndBound movies limit)) <= Z.max limit 1) as Hlen.
  { unfold removeDuplicatesAndLimit.
    pose proof (limitLoop_length ToLower ParseFloat limit
                  (sortSlice less movies) ∅ []) as H.
    simpl in H. lia. }
  set (out := dedupAndBound movies limit) in *.
  unfold removeDuplicatesAndLimit at 1.
  rewrite Hkeeps.
  - rewrite limitLoop_all; [done|done| |done|].
    + intros m _. apply seenBefore_empty.
    + simpl. lia.
  - eapply descending_sublist; [exact Hsub|].
    apply Hsorts. by apply ratingLess_weakOrder.
Qed.

End RankedSets.

Lemma ToLowerASCII_app (a b : string) :
  strings.ToLowerASCII (a +:+ b)
  = strings.ToLowerASCII a +:+ strings.ToLowerASCII b.
Proof. induction a as [|c a IH]; simpl; [done|]. by rewrite IH. Qed.

(** *** The utility on concrete inputs *)

(** C1. [removeDuplicatesAndLimit] tests [len(unique) >= limit] only
    after an append, so with limit 0 a list holding one item with a valid
    rating comes back whole: one element, above the limit. *)
Theorem DedupAndBound_limit_zero_returns_one :
  Demo.dedupAndBound [Demo.movie "A" "2000" "7.5"] 0
  = [Demo.movie "A" "2000" "7.5"]
  /\ ~ Z.of_nat (length (Demo.dedupAndBound [Demo.movie "A" "2000" "7.5"] 0)) <= 0.
Proof. split; [by vm_compute|]. vm_compute. by intros H. Qed.

(** C2, as stated, fails: sorting the two items ("A", rating "N/A") and
    ("B", rating "7.5") calls the comparator on the pair (B, A), although
    the rating of A does not parse. *)
Lemma comparator_sees_unparsed_rating :
  ~ (forall m,
       passedToComparator
         (snd (sort.insertionSortTraced (ratingLess strconv.ParseFloat)
                 [Demo.movie "A" "2000" "N/A"; Demo.movie "B" "2001" "7.5"])) m ->
       parses strconv.ParseFloat m = true).
Proof.
  intros H. specialize (H (Demo.movie "A" "2000" "N/A")).
  assert (parses strconv.ParseFloat (Demo.movie "A" "2000" "N/A") = false) as Hno
      by by vm_compute.
  rewrite H in Hno; [done|].
  exists (Demo.movie "B" "2001" "7.5"). right.
  apply list_elem_of_In. vm_compute. by left.
Qed.

(** C2, amended. [removeDuplicatesAndLimit] sorts first and filters
    afterwards: on an input of two items or more the insertion sort that
    [sort.Slice] runs on a short slice hands every input item to the
    comparator, whatever its rating; the items whose rating does not
    parse or is not positive are dropped by the loop that follows, so
    that none of them is in the result. *)
Theorem DedupAndBound_sorts_then_filters
    (ToLower : string -> string)
    (ParseFloat : string -> float64 * option error)
    (movies : list MovieBrief) (limit : Z) :
  (2 <= length movies)%nat ->
  (forall m, m ∈ movies ->
     passedToComparator
       (snd (sort.insertionSortTraced (ratingLess ParseFloat) movies)) m)
  /\ Forall (fun m => validRating ParseFloat m = true)
            (removeDuplicatesAndLimit ToLower ParseFloat
               (@sort.SliceShort MovieBrief) movies limit).
Proof.
  intros Hlen. split.
  - intros m Hm. by apply insertionSort_compares_all.
  - apply removeDuplicatesAndLimit_kept.
Qed.

Lemma DedupAndBound_sorts_then_filters_witness :
  (2 <= 2)%nat
  /\ (forall m,
        m ∈ [Demo.movie "A" "2000" "N/A"; Demo.movie "B" "2001" "7.5"] ->
        passedToComparator
          (snd (sort.insertionSortTraced (ratingLess strconv.ParseFloat)
                  [Demo.movie "A" "2000" "N/A"; Demo.movie "B" "2001" "7.5"])) m)
  /\ Forall (fun m => validRating strconv.ParseFloat m = true)
            (Demo.dedupAndBound
               [Demo.movie "A" "2000" "N/A"; Demo.movie "B" "2001" "7.5"] 20).
Proof.
  split; [lia|].
  apply (DedupAndBound_sorts_then_filters strings.ToLowerASCII strconv.ParseFloat
           [Demo.movie "A" "2000" "N/A"; Demo.movie "B" "2001" "7.5"] 20).
  simpl. lia.
Defined.

(** C3. A rating "NaN" parses without error to NaN, which [>] orders
    against nothing: the sort leaves 1.0, NaN, 2.0 as they are, the
    filter then drops the NaN item, and the result lists rating 1.0
    before rating 2.0. *)
Theorem DedupAndBound_NaN_breaks_monotonicity :
  Demo.dedupAndBound
    [Demo.movie "A" "2000" "1.0"; Demo.movie "B" "2001" "NaN";
     Demo.movie "C" "2002" "2.0"] 20
  = [Demo.movie "A" "2000" "1.0"; Demo.movie "C" "2002" "2.0"]
  /\ ~ ratingsNonIncreasing strconv.ParseFloat
         (Demo.dedupAndBound
            [Demo.movie "A" "2000" "1.0"; Demo.movie "B" "2001" "NaN";
             Demo.movie "C" "2002" "2.0"] 20).
Proof.
  assert (Demo.dedupAndBound
            [Demo.movie "A" "2000" "1.0"; Demo.movie "B" "2001" "NaN";
             Demo.movie "C" "2002" "2.0"] 20
          = [Demo.movie "A" "2000" "1.0"; Demo.movie "C" "2002" "2.0"]) as ->
      by by vm_compute.
  split; [done|]. intros H.
  specialize (H 0%nat (Demo.movie "A" "2000" "1.0") (Demo.movie "C" "2002" "2.0")
                eq_refl eq_refl).
  vm_compute in H. done.
Qed.

(** C4. No two elements of what [removeDuplicatesAndFilter] or
    [removeDuplicatesAndLimit] returns have the same canonical key, the
    lowercased title followed by the lowercased year; lowercasing is any
    function that distributes over concatenation, as [strings.ToLower]
    does. *)
Theorem canonical_keys_unique
    (ToLower : string -> string)
    (ParseFloat : string -> float64 * option error)
    (sortSlice : (MovieBrief -> MovieBrief -> bool) ->
                 list MovieBrief -> list MovieBrief)
    (movies : list MovieBrief) (genre : string) (limit : Z) :
  (forall a b, ToLower (a +:+ b) = ToLower a +:+ ToLower b) ->
  NoDup (specKey ToLower <$> removeDuplicatesAndFilter ToLower ParseFloat movies genre)
  /\ NoDup (specKey ToLower
            <$> removeDuplicatesAndLimit ToLower ParseFloat sortSlice movies limit).
Proof.
  intros Happ.
  assert (forall l : list MovieBrief,
             specKey ToLower <$> l = canonicalKey ToLower <$> l) as Hkey.
  { intros l. apply list_fmap_ext. intros _ m _.
    unfold specKey, canonicalKey. by rewrite Happ. }
  rewrite !Hkey. split.
  - apply removeDuplicatesAndFilter_keys.
  - apply removeDuplicatesAndLimit_keys.
Qed.

Lemma canonical_keys_unique_witness :
  NoDup (specKey strings.ToLowerASCII
         <$> Demo.filterAndDedup
               [Demo.movie "Heat" "1995" "8.3"; Demo.movie "HEAT" "1995" "8.3"]
               "drama")
  /\ NoDup (specKey strings.ToLowerASCII
            <$> Demo.dedupAndBound
                  [Demo.movie "Heat" "1995" "8.3"; Demo.movie "HEAT" "1995" "8.3"]
                  20).
Proof.
  apply (canonical_keys_unique strings.ToLowerASCII strconv.ParseFloat
           (@sort.SliceShort MovieBrief)
           [Demo.movie "Heat" "1995" "8.3"; Demo.movie "HEAT" "1995" "8.3"]
           "drama" 20).
  apply ToLowerASCII_app.
Defined.

(** C5. On the input of C3 a second run does not give back the result
    of the first: the first returns the ratings 1.0, 2.0 in that order,
    and the second, now free of the NaN item, sorts them into 2.0, 1.0. *)
Theorem DedupAndBound_NaN_breaks_idempotence :
  Demo.dedupAndBound
    [Demo.movie "A" "2000" "1.0"; Demo.movie "B" "2001" "NaN";
     Demo.movie "C" "2002" "2.0"] 20
  = [Demo.movie "A" "2000" "1.0"; Demo.movie "C" "2002" "2.0"]
  /\ Demo.dedupAndBound
       (Demo.dedupAndBound
          [Demo.movie "A" "2000" "1.0"; Demo.movie "B" "2001" "NaN";
           Demo.movie "C" "2002" "2.0"] 20) 20
     = [Demo.movie "C" "2002" "2.0"; Demo.movie "A" "2000" "1.0"].
Proof. split; by vm_compute. Qed.

(** ** The pipelines *)

Section PipelineFacts.

Variable ToLower : string -> string.
Variable EqualFold : string -> string -> bool.
Variable ParseFloat : string -> float64 * option error.
Variable sortSlice :
  (MovieBrief -> MovieBrief -> bool) -> list MovieBrief -> list MovieBrief.
Variable World : Type.
Variable ClientGet : URL -> World -> HttpResult * World.
Variable UnmarshalOMDb : string -> error + OMDbResponse.
Variable UnmarshalSearch : string -> error + SearchResponse.

Local Abbreviation lookupTitle := (GetMovieByTitle World ClientGet UnmarshalOMDb).
Local Abbreviation search := (searchRequest World ClientGet UnmarshalSearch).
Local Abbreviation resolve :=
  (resolveHits ToLower World ClientGet UnmarshalOMDb).
Local Abbreviation resolveExcluding :=
  (resolveHitsExcluding EqualFold World ClientGet UnmarshalOMDb).
Local Abbreviation searchByGenre :=
  (searchMovies ToLower World ClientGet UnmarshalOMDb UnmarshalSearch).
Local Abbreviation searchForRecommendation :=
  (searchMoviesForRecommendation EqualFold World ClientGet UnmarshalOMDb
     UnmarshalSearch).
Local Abbreviation terms :=
  (termLoop ToLower World ClientGet UnmarshalOMDb UnmarshalSearch).
Local Abbreviation genrePipeline :=
  (SearchMoviesByGenre ToLower ParseFloat sortSlice World ClientGet
     UnmarshalOMDb UnmarshalSearch).
Local Abbreviation recommendationPipeline :=
  (GetMovieRecommendations ToLower EqualFold ParseFloat sortSlice World
     ClientGet UnmarshalOMDb UnmarshalSearch).
Local Abbreviation genres :=
  (genreTier EqualFold World ClientGet UnmarshalOMDb UnmarshalSearch).
Local Abbreviation directors :=
  (directorTier EqualFold World ClientGet UnmarshalOMDb UnmarshalSearch).
Local Abbreviation actors :=
  (actorTier EqualFold World ClientGet UnmarshalOMDb UnmarshalSearch).
Local Abbreviation genreHandler :=
  (MovieHandler_GetMoviesByGenre ToLower ParseFloat sortSlice World ClientGet
     UnmarshalOMDb UnmarshalSearch).
Local Abbreviation recommendationHandler :=
  (MovieHandler_GetMovieRecommendations ToLower EqualFold ParseFloat sortSlice
     World ClientGet UnmarshalOMDb UnmarshalSearch).

(** *** Requests *)

Lemma httpGet_requests (u : URL) (st : State World) :
  requests World (httpGet World ClientGet u st).2 = requests World st ++ [u].
Proof. unfold httpGet. by destruct (ClientGet u (world World st)). Qed.

Lemma lookup_requests (s : OMDbService) (title : string) (st : State World) :
  requests World (lookupTitle s title st).2
  = requests World st ++ [lookupURL s title].
Proof.
  unfold GetMovieByTitle, makeRequest, bind, ret.
  pose proof (httpGet_requests (lookupURL s title) st) as H.
  unfold lookupURL in *.
  destruct (httpGet _ _ _ st) as [[err|err|body] st']; simpl in *; [done..|].
  by destruct (UnmarshalOMDb body).
Qed.

Lemma search_requests (s : OMDbService) (term : string) (st : State World) :
  requests World (search s term st).2
  = requests World st ++ [searchURL s term].
Proof.
  unfold searchRequest, bind, ret.
  pose proof (httpGet_requests (searchURL s term) st) as H.
  unfold searchURL in *.
  destruct (httpGet _ _ _ st) as [[err|err|body] st']; simpl in *; [done..|].
  by destruct (UnmarshalSearch body).
Qed.

Lemma lookup_issuedTerms (s : OMDbService) (title : string) (st : State World) :
  issuedTerms (lookupTitle s title st).2 = issuedTerms st.
Proof.
  unfold issuedTerms. rewrite lookup_requests, omap_app. simpl.
  by rewrite app_nil_r.
Qed.

Lemma search_issuedTerms (s : OMDbService) (term : string) (st : State World) :
  issuedTerms (search s term st).2 = issuedTerms st ++ [term].
Proof. unfold issuedTerms. by rewrite search_requests, omap_app. Qed.

Lemma resolve_issuedTerms (s : OMDbService) (genre : string)
    (hits : list SearchResult) :
  forall movies st,
    issuedTerms (resolve s genre hits movies st).2 = issuedTerms st.
Proof.
  induction hits as [|hit hits IH]; intros movies st; simpl; [done|].
  unfold bind. pose proof (lookup_issuedTerms s (sr_Title hit) st) as H.
  destruct (lookupTitle s (sr_Title hit) st) as [[err|details] st']; simpl in H.
  - by rewrite IH.
  - destruct (String.eqb _ _); [by rewrite IH|].
    destruct (strings.Contains _ _); by rewrite IH.
Qed.

(** A search with a genre constraint issues its term, and only it. *)
Lemma searchMovies_issuedTerms (s : OMDbService) (term genre : string)
    (st : State World) :
  issuedTerms (searchByGenre s term genre st).2 = issuedTerms st ++ [term].
Proof.
  unfold searchMovies, bind, ret.
  pose proof (search_issuedTerms s term st) as H.
  destruct (search s term st) as [[err|resp] st']; simpl in H; [done|].
  destruct (String.eqb _ _); [done|].
  pose proof (resolve_issuedTerms s genre (Search resp) [] st') as H'.
  destruct (resolve s genre (Search resp) [] st') as [movies st'']. simpl in *.
  by rewrite H', H.
Qed.

(** *** Genre ranking pipeline *)

Lemma terms_step_failed (s : OMDbService) (genre term : string)
    (rest : list string) (allMovies : list MovieBrief) (st st1 : State World)
    (err : error) :
  searchByGenre s term genre st = (inl err, st1) ->
  terms s genre (term :: rest) allMovies st = terms s genre rest allMovies st1.
Proof. intros H. simpl. unfold bind. by rewrite H. Qed.

Lemma terms_step_found (s : OMDbService) (genre term : string)
    (rest : list string) (allMovies movies : list MovieBrief)
    (st st1 : State World) :
  searchByGenre s term genre st = (inr movies, st1) ->
  terms s genre (term :: rest) allMovies st
  = if Z.of_nat (length (allMovies ++ movies)) >=? 50
    then (allMovies ++ movies, st1)
    else terms s genre rest (allMovies ++ movies) st1.
Proof. intros H. simpl. unfold bind. rewrite H. by destruct (_ >=? 50). Qed.

(** The loop over the search terms issues a prefix of them, in order;
    before each term it issues, fewer than 50 candidates are at hand; if
    it leaves a term out, 50 or more are. *)
Lemma termLoop_issues (s : OMDbService) (genre : string) (searchTerms : list string) :
  forall allMovies st,
    Z.of_nat (length allMovies) < 50 ->
    exists n : nat,
      (n <= length searchTerms)%nat
      /\ issuedTerms (terms s genre searchTerms allMovies st).2
         = issuedTerms st ++ take n searchTerms
      /\ (forall k : nat, (k < n)%nat ->
            Z.of_nat (length (terms s genre (take k searchTerms) allMovies st).1)
            < 50)
      /\ ((n < length searchTerms)%nat ->
          50 <= Z.of_nat (length (terms s genre searchTerms allMovies st).1)).
Proof.
  induction searchTerms as [|term rest IH]; intros allMovies st Hlt.
  - exists 0%nat. simpl. rewrite app_nil_r. repeat split; [done|lia|lia].
  - pose proof (searchMovies_issuedTerms s term genre st) as Hissued.
    destruct (searchByGenre s term genre st) as [[err|movies] st1] eqn:Hsearch;
      simpl in Hissued.
    + destruct (IH allMovies st1 Hlt) as (n & Hn & Hlog & Hbefore & Hcut).
      exists (S n). rewrite (terms_step_failed _ _ _ _ _ _ _ _ Hsearch).
      split; [simpl; lia|]. split.
      { rewrite Hlog, Hissued, <- app_assoc. done. }
      split.
      * intros [|k] Hk; [done|]. simpl take.
        rewrite (terms_step_failed _ _ _ _ _ _ _ _ Hsearch).
        apply Hbefore. lia.
      * intros Hn'. apply Hcut. simpl in Hn'. lia.
    + rewrite (terms_step_found _ _ _ _ _ _ _ _ Hsearch).
      destruct (_ >=? 50) eqn:Hfull.
      * exists 1%nat. simpl. rewrite take_0. split; [lia|]. split; [done|].
        split.
        -- intros k Hk. assert (k = 0%nat) as -> by lia. done.
        -- intros _. rewrite Z.geb_leb in Hfull. by apply Z.leb_le in Hfull.
      * rewrite Z.geb_leb in Hfull. apply Z.leb_gt in Hfull.
        destruct (IH (allMovies ++ movies) st1 Hfull)
          as (n & Hn & Hlog & Hbefore & Hcut).
        exists (S n). split; [simpl; lia|]. split.
        { rewrite Hlog, Hissued, <- app_assoc. done. }
        split.
        -- intros [|k] Hk; [done|]. simpl take.
           rewrite (terms_step_found _ _ _ _ _ _ _ _ Hsearch).
           apply Z.leb_gt in Hfull. rewrite <- Z.geb_leb in Hfull.
           rewrite Hfull. apply Hbefore. lia.
        -- intros Hn'. apply Hcut. simpl in Hn'. lia.
Qed.

Lemma genrePipeline_run (s : OMDbService) (genre : string) (st : State World) :
  genrePipeline s genre st
  = (let allMovies := (terms s genre (searchTerms genre) [] st).1 in
     let uniqueMovies :=
       sortSlice (ratingLess ParseFloat)
         (removeDuplicatesAndFilter ToLower ParseFloat allMovies genre) in
     inr (if Z.of_nat (length uniqueMovies) >? 15
          then take 15 uniqueMovies else uniqueMovies),
     (terms s genre (searchTerms genre) [] st).2).
Proof.
  unfold SearchMoviesByGenre, bind, ret.
  by destruct (terms s genre (searchTerms genre) [] st).
Qed.

(** The code's year list is the specification's for the year 2024. *)
Lemma searchTerms_in_2024 (genre : string) :
  searchTerms genre = specSearchTerms 2024 genre.
Proof. reflexivity. Qed.

(** C6, as stated, fails: [currentYear] is the constant 2024, so a run
    in 2025 searches "Action 2024" where the most recent eleven years
    start with "Action 2025". *)
Lemma year_terms_do_not_follow_the_calendar :
  searchTerms "Action" <> specSearchTerms 2025 "Action".
Proof. by vm_compute. Qed.

(** C6, amended. The genre pipeline issues its search terms in this
    order: the genre, "genre movie", "best genre", then the genre with
    each of the eleven years from 2024 down to 2014, 2024 being the
    constant [currentYear] of the code; it issues a prefix of that list,
    each term while fewer than 50 candidates have been gathered, and
    leaves terms out only when 50 or more have. *)
Theorem genre_terms_in_order_until_fifty
    (s : OMDbService) (genre : string) (st : State World) :
  currentYear = 2024
  /\ searchTerms genre = specSearchTerms currentYear genre
  /\ searchTerms genre
     = [genre; genre +:+ " movie"; "best " +:+ genre;
        genre +:+ " 2024"; genre +:+ " 2023"; genre +:+ " 2022";
        genre +:+ " 2021"; genre +:+ " 2020"; genre +:+ " 2019";
        genre +:+ " 2018"; genre +:+ " 2017"; genre +:+ " 2016";
        genre +:+ " 2015"; genre +:+ " 2014"]
  /\ exists n : nat,
       (n <= 14)%nat
       /\ issuedTerms (genrePipeline s genre st).2
          = issuedTerms st ++ take n (searchTerms genre)
       /\ (forall k : nat, (k < n)%nat ->
             Z.of_nat (length (terms s genre (take k (searchTerms genre)) [] st).1)
             < 50)
       /\ ((n < 14)%nat ->
           50 <= Z.of_nat (length (terms s genre (searchTerms genre) [] st).1)).
Proof.
  split; [done|]. split; [done|]. split; [done|].
  destruct (termLoop_issues s genre (searchTerms genre) [] st)
    as (n & Hn & Hlog & Hbefore & Hcut); [simpl; lia|].
  change (length (searchTerms genre)) with 14%nat in *.
  exists n. rewrite genrePipeline_run. cbv zeta. cbn [snd].
  repeat split; assumption.
Qed.

(** C10. [SearchMoviesByGenre] returns a nil error whatever the provider
    does, so the handler never answers 500 for it: a missing genre
    parameter gives 400, an empty list 404, anything else 200. *)
Theorem SearchMoviesByGenre_never_fails
    (s : OMDbService) (genre : string) (st : State World) :
  exists movies : list MovieBrief,
    (genrePipeline s genre st).1 = inr movies
    /\ statusOf (genreHandler s genre st).1
       = (if String.eqb genre "" then StatusBadRequest
          else if Z.of_nat (length movies) =? 0 then StatusNotFound
          else StatusOK)
    /\ statusOf (genreHandler s genre st).1 <> StatusInternalServerError.
Proof.
  rewrite genrePipeline_run. cbv zeta. cbn [fst].
  eexists. split; [reflexivity|].
  unfold MovieHandler_GetMoviesByGenre, bind, ret.
  destruct (String.eqb genre ""); [done|].
  rewrite genrePipeline_run. cbv zeta. cbn [fst].
  destruct (_ =? 0); done.
Qed.

(** What the genre pipeline returns is a ranked set of at most 15
    titles, for a [sort.Slice] that sorts: the filter runs before the
    sort, so the comparator meets positive ratings only. *)
Lemma SearchMoviesByGenre_ranked
    (s : OMDbService) (genre : string) (st : State World)
    (movies : list MovieBrief) :
  SortPermutes sortSlice -> SortSorts sortSlice ->
  (genrePipeline s genre st).1 = inr movies ->
  ratingsNonIncreasing ParseFloat movies
  /\ NoDup (canonicalKey ToLower <$> movies)
  /\ Forall (fun m => validRating ParseFloat m = true) movies
  /\ (length movies <= 15)%nat.
Proof.
  intros Hperm Hsorts. rewrite genrePipeline_run. cbv zeta. cbn [fst].
  set (allMovies := (terms s genre (searchTerms genre) [] st).1).
  set (unique := removeDuplicatesAndFilter ToLower ParseFloat allMovies genre).
  set (sorted := sortSlice (ratingLess ParseFloat) unique).
  intros [= <-].
  destruct (removeDuplicatesAndFilter_kept ToLower ParseFloat allMovies genre)
    as [_ Hval]. fold unique in Hval.
  pose proof (removeDuplicatesAndFilter_keys ToLower ParseFloat allMovies genre)
    as Hkeys. fold unique in Hkeys.
  assert (Forall (fun m => validRating ParseFloat m = true) sorted) as Hval'.
  { unfold sorted. by rewrite (Hperm _ unique). }
  assert (NoDup (canonicalKey ToLower <$> sorted)) as Hkeys'.
  { unfold sorted. by rewrite (Hperm _ unique). }
  assert (descending (ratingLess ParseFloat) sorted) as Hdesc.
  { apply Hsorts, ratingLess_weakOrder. intros m Hm.
    apply valid_not_nan. rewrite Forall_forall in Hval. by apply Hval. }
  assert (forall l, l `sublist_of` sorted ->
            ratingsNonIncreasing ParseFloat l
            /\ NoDup (canonicalKey ToLower <$> l)
            /\ Forall (fun m => validRating ParseFloat m = true) l) as Hsub.
  { intros l Hl. split; [|split].
    - apply descending_monotone; [|by eapply descending_sublist].
      intros m Hm. apply valid_not_nan. rewrite Forall_forall in Hval'.
      apply Hval'. by eapply elem_of_sublist.
    - apply (sublist_NoDup _ (canonicalKey ToLower <$> sorted));
        [done|exact (fmap_sublist _ _ _ Hl)].
    - rewrite Forall_forall in Hval' |- *. intros m Hm.
      apply Hval'. by eapply elem_of_sublist. }
  destruct (_ >? 15) eqn:Hlong.
  - destruct (Hsub (take 15 sorted)) as (? & ? & ?); [apply sublist_take|].
    repeat split; [done..|]. rewrite length_take. lia.
  - destruct (Hsub sorted) as (? & ? & ?); [done|].
    repeat split; [done..|].
    rewrite Z.gtb_ltb in Hlong. apply Z.ltb_ge in Hlong. lia.
Qed.

(** *** Recommendation pipeline *)

(** The three messages [makeRequest] wraps a failure in all start with
    "failed to", so none of them is a "movie not found" message. *)
Lemma lookup_error_message (s : OMDbService) (title other : string)
    (st st1 : State World) (err : error) :
  lookupTitle s title st = (inl err, st1) -> err <> "movie not found: " +:+ other.
Proof.
  unfold GetMovieByTitle, makeRequest, bind, ret.
  destruct (httpGet _ _ _ st) as [[e|e|body] st'].
  - intros [= <- _]. done.
  - intros [= <- _]. done.
  - destruct (UnmarshalOMDb body); intros [= <- _]. done.
Qed.

Lemma appendTier_Forall (P : MovieLevel -> Prop) (recommendations : list MovieLevel)
    (level : Z) (description : string) (movies : list MovieBrief) :
  Forall P recommendations ->
  (movies <> [] ->
   P {| Level := level; Description := description; Movies := movies |}) ->
  Forall P (appendTier recommendations level description movies).
Proof.
  intros Hrec Hnew. unfold appendTier. destruct movies as [|m movies]; [done|].
  simpl. apply Forall_app. split; [done|]. constructor; [|done]. by apply Hnew.
Qed.

Lemma removeDuplicatesAndLimit_nil (limit : Z) :
  SortPermutes sortSlice ->
  removeDuplicatesAndLimit ToLower ParseFloat sortSlice [] limit = [].
Proof.
  intros Hperm. unfold removeDuplicatesAndLimit.
  pose proof (Hperm (ratingLess ParseFloat) []) as H.
  apply Permutation_nil_r in H. by rewrite H.
Qed.

(** C7. When the seed resolves, the recommendation pipeline returns a
    response none of whose tiers is empty; and when the director field
    of the seed is "N/A", no tier of level 2 is among them. *)
Theorem empty_tiers_are_omitted
    (s : OMDbService) (favoriteTitle : string) (st st1 : State World)
    (seed : OMDbResponse) :
  SortPermutes sortSlice ->
  lookupTitle s favoriteTitle st = (inr seed, st1) ->
  Response seed <> "False" ->
  exists (response : RecommendationResponse) (st' : State World),
    recommendationPipeline s favoriteTitle st = (inr response, st')
    /\ Forall (fun tier => Movies tier <> []) (Recommendations response)
    /\ (Director seed = "N/A" ->
        Forall (fun tier => Level tier <> 2) (Recommendations response)).
Proof.
  intros Hperm Hseed Hfound.
  unfold GetMovieRecommendations, bind, ret. rewrite Hseed.
  apply String.eqb_neq in Hfound. rewrite Hfound.
  destruct (genres s favoriteTitle _ [] st1) as [level1 st2].
  destruct (directors s favoriteTitle _ [] st2) as [level2 st3] eqn:Hdirectors.
  destruct (actors s favoriteTitle 0 _ [] st3) as [level3 st4].
  eexists _, _. split; [reflexivity|]. cbn [Recommendations]. split.
  - repeat apply appendTier_Forall; [constructor|by simpl..].
  - intros Hna. rewrite Hna in Hdirectors.
    change (strings.Split "N/A" ", ") with ["N/A"] in Hdirectors.
    cbn in Hdirectors. injection Hdirectors as <- <-.
    rewrite (removeDuplicatesAndLimit_nil 20 Hperm).
    repeat apply appendTier_Forall; [constructor|by simpl..].
Qed.

(** C8. When the seed lookup answers with success flag "False", the
    pipeline stops there: it returns the error "movie not found: <title>"
    with the provider untouched since that one lookup, and the handler
    answers 404; an error of the lookup itself is passed on unchanged,
    is never that message, and makes the handler answer 500. *)
Theorem seed_not_found_is_signalled
    (s : OMDbService) (favoriteTitle : string) (st st1 : State World)
    (seed : OMDbResponse) :
  lookupTitle s favoriteTitle st = (inr seed, st1) ->
  Response seed = "False" ->
  recommendationPipeline s favoriteTitle st
  = (inl ("movie not found: " +:+ favoriteTitle), st1)
  /\ requests World st1 = requests World st ++ [lookupURL s favoriteTitle]
  /\ (favoriteTitle <> "" ->
      statusOf (recommendationHandler s favoriteTitle st).1 = StatusNotFound)
  /\ (forall (st' st1' : State World) (err : error),
        lookupTitle s favoriteTitle st' = (inl err, st1') ->
        recommendationPipeline s favoriteTitle st' = (inl err, st1')
        /\ err <> "movie not found: " +:+ favoriteTitle
        /\ (favoriteTitle <> "" ->
            statusOf (recommendationHandler s favoriteTitle st').1
            = StatusInternalServerError)).
Proof.
  intros Hseed Hflag.
  assert (recommendationPipeline s favoriteTitle st
          = (inl ("movie not found: " +:+ favoriteTitle), st1)) as Hrun.
  { unfold GetMovieRecommendations, bind, ret. by rewrite Hseed, Hflag. }
  split; [done|]. split.
  { pose proof (lookup_requests s favoriteTitle st) as H. by rewrite Hseed in H. }
  split.
  { intros Hne. unfold MovieHandler_GetMovieRecommendations, bind, ret.
    apply String.eqb_neq in Hne. rewrite Hne, Hrun.
    by rewrite String.eqb_refl. }
  intros st' st1' err Hfail.
  assert (recommendationPipeline s favoriteTitle st' = (inl err, st1')) as Hrun'.
  { unfold GetMovieRecommendations, bind, ret. by rewrite Hfail. }
  pose proof (lookup_error_message _ _ favoriteTitle _ _ _ Hfail) as Hmsg.
  split; [done|]. split; [done|].
  intros Hne. unfold MovieHandler_GetMovieRecommendations, bind, ret.
  apply String.eqb_neq in Hne. rewrite Hne, Hrun'.
  apply String.eqb_neq in Hmsg. by rewrite Hmsg.
Qed.

(** C9. A free-text search answered with success flag "False" makes
    both resolvers return the empty list and no error, and each loop
    that called them goes on with its next term or attribute value; a
    hit whose lookup fails or is answered "False" is passed over, and the
    resolver goes on with the next hit. *)
Theorem not_found_results_are_skipped
    (s : OMDbService) (term genre favoriteTitle : string) (rest : list string)
    (movies : list MovieBrief) (st st1 : State World) (resp : SearchResponse) :
  search s term st = (inr resp, st1) ->
  sr_Response resp = "False" ->
  Z.of_nat (length movies) < 50 ->
  searchByGenre s term genre st = (inr [], st1)
  /\ searchForRecommendation s term favoriteTitle st = (inr [], st1)
  /\ terms s genre (term :: rest) movies st = terms s genre rest movies st1
  /\ genres s favoriteTitle (term :: rest) movies st
     = genres s favoriteTitle rest movies st1
  /\ (named term = true ->
      directors s favoriteTitle (term :: rest) movies st
      = directors s favoriteTitle rest movies st1)
  /\ (named term = true ->
      forall i, i < 2 ->
        actors s favoriteTitle i (term :: rest) movies st
        = actors s favoriteTitle (i + 1) rest movies st1)
  /\ (forall (hit : SearchResult) (hits : list SearchResult)
             (found : list MovieBrief) (st' st1' : State World)
             (r : error + OMDbResponse),
        lookupTitle s (sr_Title hit) st' = (r, st1') ->
        unresolved r ->
        resolve s genre (hit :: hits) found st' = resolve s genre hits found st1'
        /\ (EqualFold (sr_Title hit) favoriteTitle = false ->
            resolveExcluding s favoriteTitle (hit :: hits) found st'
            = resolveExcluding s favoriteTitle hits found st1')).
Proof.
  intros Hsearch Hflag Hlen.
  assert (searchByGenre s term genre st = (inr [], st1)) as Hgenre.
  { unfold searchMovies, bind, ret. by rewrite Hsearch, Hflag. }
  assert (searchForRecommendation s term favoriteTitle st = (inr [], st1)) as Hrec.
  { unfold searchMoviesForRecommendation, bind, ret. by rewrite Hsearch, Hflag. }
  split; [done|]. split; [done|]. split.
  { rewrite (terms_step_found _ _ _ _ _ _ _ _ Hgenre), app_nil_r.
    apply Z.leb_gt in Hlen. rewrite <- Z.geb_leb in Hlen. by rewrite Hlen. }
  split.
  { simpl. unfold bind. by rewrite Hrec, app_nil_r. }
  split.
  { intros Hnamed. simpl. unfold bind. by rewrite Hnamed, Hrec, app_nil_r. }
  split.
  { intros Hnamed i Hi. simpl. unfold bind.
    apply Z.leb_gt in Hi. rewrite <- Z.geb_leb in Hi.
    by rewrite Hi, Hnamed, Hrec, app_nil_r. }
  intros hit hits found st' st1' r Hlookup Hun. split.
  - simpl. unfold bind. rewrite Hlookup.
    destruct r as [err|details]; [done|]. simpl in Hun. by rewrite Hun.
  - intros Hfold. simpl. unfold bind. rewrite Hfold, Hlookup.
    destruct r as [err|details]; [done|]. simpl in Hun. by rewrite Hun.
Qed.

End PipelineFacts.

(** *** The pipelines against the scripted provider *)

Lemma SliceShort_permutes : SortPermutes (@sort.SliceShort MovieBrief).
Proof. intros less l. apply SliceShort_perm. Qed.

Lemma SliceShort_is_sorting : SortSorts (@sort.SliceShort MovieBrief).
Proof. intros less l. apply SliceShort_sorts. Qed.

Lemma SliceShort_keeps_sorted : SortKeepsSorted (@sort.SliceShort MovieBrief).
Proof. intros less l. apply SliceShort_keeps. Qed.

(** The seed "Heat" has director "N/A" and the genres Crime and Drama;
    the search for Crime has one hit, the one for Drama none. *)
Lemma empty_tiers_are_omitted_witness :
  exists (response : RecommendationResponse) (st' : State Demo.World),
    Demo.recommend "Heat"
      (Demo.start [Body "heat"; Body "one hit"; Body "ronin"; Body "no results"])
    = (inr response, st')
    /\ Forall (fun tier => Movies tier <> []) (Recommendations response)
    /\ (Director Demo.heat = "N/A" ->
        Forall (fun tier => Level tier <> 2) (Recommendations response)).
Proof.
  eapply (empty_tiers_are_omitted strings.ToLowerASCII strings.EqualFoldASCII
            strconv.ParseFloat (@sort.SliceShort MovieBrief)
            Demo.World Demo.ClientGet Demo.UnmarshalOMDb Demo.UnmarshalSearch
            Demo.service "Heat"
            (Demo.start [Body "heat"; Body "one hit"; Body "ronin";
                         Body "no results"])
            _ Demo.heat).
  - exact SliceShort_permutes.
  - reflexivity.
  - discriminate.
Defined.

Lemma seed_not_found_is_signalled_witness :
  Demo.recommend "Heat" (Demo.start [Body "not found"])
  = (inl "movie not found: Heat",
     {| world := []; requests := [lookupURL Demo.service "Heat"] |})
  /\ statusOf (Demo.recommendHandler "Heat" (Demo.start [Body "not found"])).1
     = StatusNotFound.
Proof.
  destruct (seed_not_found_is_signalled strings.ToLowerASCII
              strings.EqualFoldASCII strconv.ParseFloat
              (@sort.SliceShort MovieBrief)
              Demo.World Demo.ClientGet Demo.UnmarshalOMDb Demo.UnmarshalSearch
              Demo.service "Heat" (Demo.start [Body "not found"])
              {| world := []; requests := [lookupURL Demo.service "Heat"] |}
              Demo.notFound eq_refl eq_refl)
    as (Hrun & _ & Hstatus & _).
  split; [exact Hrun|]. apply Hstatus. discriminate.
Defined.

Lemma not_found_results_are_skipped_witness :
  Demo.searchByGenre "Crime" "Crime" (Demo.start [Body "no results"])
  = (inr [], {| world := []; requests := [searchURL Demo.service "Crime"] |}).
Proof.
  apply (not_found_results_are_skipped strings.ToLowerASCII
           strings.EqualFoldASCII
           Demo.World Demo.ClientGet Demo.UnmarshalOMDb Demo.UnmarshalSearch
           Demo.service "Crime" "Crime" "Heat" ["Crime movie"] []
           (Demo.start [Body "no results"])
           {| world := []; requests := [searchURL Demo.service "Crime"] |}
           {| Search := []; sr_Response := "False" |}).
  - reflexivity.
  - reflexivity.
  - simpl. lia.
Defined.

(** *** The utility on the insertion sort of short slices *)

(** Away from NaN the result is in rating order and a second run
    changes nothing, for every limit. *)
Corollary DedupAndBound_ranked_without_NaN
    (ToLower : string -> string)
    (ParseFloat : string -> float64 * option error)
    (movies : list MovieBrief) (limit : Z) :
  noNaN ParseFloat movies ->
  let dedupAndBound :=
    removeDuplicatesAndLimit ToLower ParseFloat (@sort.SliceShort MovieBrief) in
  ratingsNonIncreasing ParseFloat (dedupAndBound movies limit)
  /\ dedupAndBound (dedupAndBound movies limit) limit = dedupAndBound movies limit.
Proof.
  intros Hnan. split.
  - by apply removeDuplicatesAndLimit_monotone;
      [apply SliceShort_permutes|apply SliceShort_is_sorting|].
  - by apply removeDuplicatesAndLimit_idempotent;
      [apply SliceShort_permutes|apply SliceShort_is_sorting
      |apply SliceShort_keeps_sorted|].
Qed.

(** * More of the code *)

(** ** The dedup loops, pass by pass *)

Lemma filter_twice {A : Type} (p q : A -> bool) (l : list A) :
  List.filter p (List.filter q l) = List.filter (fun x => q x && p x) l.
Proof.
  induction l as [|x l IH]; simpl; [done|].
  destruct (q x); simpl; [|done]. destruct (p x); by rewrite IH.
Qed.

Lemma filter_all {A : Type} (p : A -> bool) (l : list A) :
  (forall x, x ∈ l -> p x = true) -> List.filter p l = l.
Proof.
  induction l as [|x l IH]; intros H; simpl; [done|].
  rewrite (H x) by left. rewrite IH; [done|]. intros y Hy. apply H. by right.
Qed.

Lemma filter_is_sublist {A : Type} (p : A -> bool) (l : list A) :
  List.filter p l `sublist_of` l.
Proof.
  induction l as [|x l IH]; simpl; [done|].
  destruct (p x); [by apply sublist_skip|by apply sublist_cons].
Qed.

Lemma firstOccurrences_sublist {A : Type} (key : A -> string) (l : list A) :
  firstOccurrences key l `sublist_of` l.
Proof.
  induction l as [|x l IH]; simpl; [done|]. apply sublist_skip.
  etrans; [|exact IH]. clear IH.
  induction (firstOccurrences key l) as [|y k IHk]; simpl; [done|].
  destruct (negb _); [by apply sublist_skip|by apply sublist_cons].
Qed.

Lemma firstOccurrences_keys {A : Type} (key : A -> string) (l : list A) (x : A) :
  x ∈ l -> key x ∈ key <$> firstOccurrences key l.
Proof.
  induction l as [|h l IH]; intros Hx; [by apply elem_of_nil in Hx|].
  simpl. destruct (String.eqb_spec (key x) (key h)) as [Heq|Hne].
  - rewrite Heq. by left.
  - right. apply elem_of_cons in Hx as [->|Hx]; [done|].
    apply list_elem_of_fmap in IH as (o & Ho & Hin); [|done].
    apply list_elem_of_fmap. exists o. split; [done|].
    apply list_elem_of_In, filter_In. split; [by apply list_elem_of_In|].
    apply negb_true_iff, String.eqb_neq. congruence.
Qed.

Lemma firstOccurrences_NoDup {A : Type} (key : A -> string) (l : list A) :
  NoDup (key <$> l) -> firstOccurrences key l = l.
Proof.
  induction l as [|h l IH]; intros Hnd; simpl; [done|].
  rewrite fmap_cons in Hnd. apply NoDup_cons in Hnd as [Hh Hnd].
  rewrite IH by done. f_equal. apply filter_all. intros y Hy.
  apply negb_true_iff, String.eqb_neq. intros Heq. apply Hh.
  rewrite <- Heq. by apply list_elem_of_fmap_2.
Qed.

(** In a list in order, the first occurrence of a key comes before the
    other items of that key. *)
Lemma firstOccurrences_leads {A : Type} (key : A -> string) (R : A -> A -> Prop)
    (l : list A) :
  StronglySorted R l -> (forall x, x ∈ l -> R x x) ->
  forall x, x ∈ l ->
    exists o, o ∈ firstOccurrences key l /\ key o = key x /\ R o x.
Proof.
  induction 1 as [|h l Hs IH Hall]; intros Hrefl x Hx;
    [by apply elem_of_nil in Hx|].
  simpl. destruct (String.eqb_spec (key x) (key h)) as [Heq|Hne].
  - exists h. split; [by left|]. split; [done|].
    apply elem_of_cons in Hx as [->|Hx]; [apply Hrefl; by left|].
    rewrite Forall_forall in Hall. by apply Hall.
  - apply elem_of_cons in Hx as [->|Hx]; [done|].
    destruct (IH (fun y Hy => Hrefl y (list_elem_of_further _ _ _ Hy)) x Hx)
      as (o & Ho & Hkey & HR).
    exists o. split; [|done]. right.
    apply list_elem_of_In, filter_In. split; [by apply list_elem_of_In|].
    apply negb_true_iff, String.eqb_neq. congruence.
Qed.

Section Passes.

Variable ToLower : string -> string.
Variable ParseFloat : string -> float64 * option error.
Variable sortSlice :
  (MovieBrief -> MovieBrief -> bool) -> list MovieBrief -> list MovieBrief.

Local Abbreviation K := (canonicalKey ToLower).
Local Abbreviation valid := (validRating ParseFloat).
Local Abbreviation less := (ratingLess ParseFloat).

Lemma seenBefore_insert_false (seen : gmap string bool) (k k' : string) :
  negb (seenBefore (<[k := true]> seen) k')
  = negb (String.eqb k' k) && negb (seenBefore seen k').
Proof.
  unfold seenBefore. destruct (String.eqb_spec k' k) as [->|Hne]; simpl.
  - by rewrite lookup_insert_eq.
  - by rewrite lookup_insert_ne.
Qed.

(** [filterLoop] is three passes in one: keep the items that match the
    genre and have a valid rating, keep the first item of each key, and
    drop the keys already seen. *)
Lemma filterLoop_passes (targetGenre : string) (movies : list MovieBrief) :
  forall seen unique,
    filterLoop ToLower ParseFloat targetGenre movies seen unique
    = unique
      ++ List.filter (fun m => negb (seenBefore seen (K m)))
           (firstOccurrences K
              (List.filter (genreMatches ToLower targetGenre ParseFloat) movies)).
Proof.
  unfold genreMatches.
  induction movies as [|movie rest IH]; intros seen unique; simpl.
  - by rewrite app_nil_r.
  - destruct (strings.Contains _ _) eqn:Hgenre; simpl;
      [|rewrite andb_false_r; apply IH].
    destruct (valid movie) eqn:Hvalid; simpl;
      [|destruct (negb _); apply IH].
    destruct (seenBefore seen (K movie)) eqn:Hseen; simpl.
    + rewrite IH. f_equal. rewrite filter_twice. apply List.filter_ext.
      intros m. destruct (String.eqb_spec (K m) (K movie)) as [->|]; simpl;
        [by rewrite Hseen|done].
    + rewrite IH, <- app_assoc. simpl. do 2 f_equal.
      rewrite filter_twice. apply List.filter_ext.
      intros m. apply seenBefore_insert_false.
Qed.

(** [limitLoop] is the same with the validity test alone, cut off after
    the append that reaches the limit. *)
Lemma limitLoop_passes (limit : Z) (movies : list MovieBrief) :
  forall seen unique,
    limitLoop ToLower ParseFloat limit movies seen unique
    = unique
      ++ take (Z.to_nat (Z.max 1 (limit - Z.of_nat (length unique))))
           (List.filter (fun m => negb (seenBefore seen (K m)))
              (firstOccurrences K (List.filter valid movies))).
Proof.
  induction movies as [|movie rest IH]; intros seen unique; simpl.
  - by rewrite take_nil, app_nil_r.
  - destruct (valid movie) eqn:Hvalid; simpl;
      [|destruct (negb _); apply IH].
    destruct (seenBefore seen (K movie)) eqn:Hseen; simpl.
    + rewrite IH. do 2 f_equal. rewrite filter_twice. apply List.filter_ext.
      intros m. destruct (String.eqb_spec (K m) (K movie)) as [->|]; simpl;
        [by rewrite Hseen|done].
    + destruct (_ >=? limit) eqn:Hfull.
      * rewrite Z.geb_leb in Hfull. apply Z.leb_le in Hfull.
        rewrite length_app in Hfull. simpl in Hfull.
        replace (Z.to_nat _) with 1%nat by lia. simpl. by rewrite take_0.
      * rewrite Z.geb_leb in Hfull. apply Z.leb_gt in Hfull.
        rewrite IH, <- app_assoc. rewrite length_app in *. simpl in *.
        f_equal.
        replace (Z.to_nat (Z.max 1 (limit - Z.of_nat (length unique))))
          with (S (Z.to_nat (Z.max 1
                     (limit - Z.of_nat (length unique + 1))))) by lia.
        simpl. do 2 f_equal. rewrite filter_twice. apply List.filter_ext.
        intros m. apply seenBefore_insert_false.
Qed.

Local Abbreviation dedupAndBound :=
  (removeDuplicatesAndLimit ToLower ParseFloat sortSlice).
Local Abbreviation filterAndDedup :=
  (removeDuplicatesAndFilter ToLower ParseFloat).

Lemma unseen_all (l : list MovieBrief) :
  List.filter (fun m => negb (seenBefore ∅ (K m))) l = l.
Proof. apply filter_all. intros m _. unfold seenBefore. by rewrite lookup_empty. Qed.

Lemma removeDuplicatesAndFilter_passes
    (movies : list MovieBrief) (genre : string) :
  filterAndDedup movies genre
  = firstOccurrences K (List.filter (genreMatches ToLower genre ParseFloat) movies)
  /\ filterAndDedup movies genre `sublist_of` movies
  /\ (forall m, m ∈ movies -> genreMatches ToLower genre ParseFloat m = true ->
        K m ∈ K <$> filterAndDedup movies genre)
  /\ (forall m, m ∈ filterAndDedup movies genre ->
        genreMatches ToLower genre ParseFloat m = true).
Proof.
  assert (filterAndDedup movies genre
          = firstOccurrences K
              (List.filter (genreMatches ToLower genre ParseFloat) movies)) as Heq.
  { unfold removeDuplicatesAndFilter. by rewrite filterLoop_passes, unseen_all. }
  split; [done|]. rewrite Heq. split; [|split].
  - etrans; [apply firstOccurrences_sublist|]. apply filter_is_sublist.
  - intros m Hm Hok. apply firstOccurrences_keys.
    apply list_elem_of_In, filter_In. split; [by apply list_elem_of_In|done].
  - intros m Hm. eapply elem_of_sublist in Hm; [|apply firstOccurrences_sublist].
    by apply list_elem_of_In, filter_In in Hm as [_ Hm].
Qed.

(** X1. [removeDuplicatesAndFilter] returns the first item of each key
    among the items that contain the target genre and have a valid
    rating, in the order of the input: an item that fails the test does
    not stand in for a later one with its key, and every item that
    passes has its key in the result. *)
Theorem FilterAndDedup_first_valid_of_each_key
    (movies : list MovieBrief) (genre : string) :
  filterAndDedup movies genre
  = firstOccurrences K (List.filter (genreMatches ToLower genre ParseFloat) movies)
  /\ filterAndDedup movies genre `sublist_of` movies
  /\ (forall m, m ∈ movies -> genreMatches ToLower genre ParseFloat m = true ->
        K m ∈ K <$> filterAndDedup movies genre)
  /\ (forall m, m ∈ filterAndDedup movies genre ->
        genreMatches ToLower genre ParseFloat m = true).
Proof. apply removeDuplicatesAndFilter_passes. Qed.

(** X2. Running [removeDuplicatesAndFilter] on its own result, with the
    same genre, changes nothing. *)
Theorem FilterAndDedup_idempotent (movies : list MovieBrief) (genre : string) :
  filterAndDedup (filterAndDedup movies genre) genre = filterAndDedup movies genre.
Proof.
  destruct (removeDuplicatesAndFilter_passes movies genre) as (_ & _ & _ & Hok).
  destruct (removeDuplicatesAndFilter_passes (filterAndDedup movies genre) genre)
    as (-> & _).
  rewrite filter_all by done.
  apply firstOccurrences_NoDup, removeDuplicatesAndFilter_keys.
Qed.

Lemma removeDuplicatesAndLimit_passes (movies : list MovieBrief) (limit : Z) :
  dedupAndBound movies limit
  = take (Z.to_nat (Z.max 1 limit))
      (firstOccurrences K (List.filter valid (sortSlice less movies))).
Proof.
  unfold removeDuplicatesAndLimit.
  rewrite limitLoop_passes, unseen_all. simpl. by rewrite Z.sub_0_r.
Qed.

(** X3. [removeDuplicatesAndLimit] is four passes: sort, keep the valid
    ratings, keep the first item of each key, and cut after [limit]
    items, after one item when [limit] is below 1. *)
Theorem DedupAndBound_pass_by_pass (movies : list MovieBrief) (limit : Z) :
  dedupAndBound movies limit
  = take (Z.to_nat (Z.max 1 limit))
      (firstOccurrences K (List.filter valid (sortSlice less movies))).
Proof. apply removeDuplicatesAndLimit_passes. Qed.

(** X4. [removeDuplicatesAndLimit] never returns more than [limit]
    items when [limit] is 1 or more, and never more than one otherwise. *)
Theorem DedupAndBound_length (movies : list MovieBrief) (limit : Z) :
  Z.of_nat (length (dedupAndBound movies limit)) <= Z.max 1 limit.
Proof. rewrite removeDuplicatesAndLimit_passes, length_take. lia. Qed.

(** X5. What [removeDuplicatesAndLimit] returns is made of items of its
    input, each with a rating that parses to a positive number, and
    every valid item of the input has its key in the result when the
    result is shorter than the limit. *)
Theorem DedupAndBound_members (movies : list MovieBrief) (limit : Z) :
  SortPermutes sortSlice ->
  (forall o, o ∈ dedupAndBound movies limit ->
     o ∈ movies /\ valid o = true)
  /\ (Z.of_nat (length (dedupAndBound movies limit)) < limit ->
      forall m, m ∈ movies -> valid m = true ->
        K m ∈ K <$> dedupAndBound movies limit).
Proof.
  intros Hperm. split.
  - intros o Ho.
    destruct (removeDuplicatesAndLimit_kept ToLower ParseFloat sortSlice
                movies limit) as [Hsub Hval].
    split.
    + rewrite <- (Hperm less movies). by eapply elem_of_sublist.
    + rewrite Forall_forall in Hval. by apply Hval.
  - rewrite removeDuplicatesAndLimit_passes. intros Hshort m Hm Hvalid.
    rewrite take_ge.
    + apply firstOccurrences_keys. apply list_elem_of_In, filter_In.
      split; [|done]. apply list_elem_of_In. by rewrite (Hperm less movies).
    + rewrite length_take in Hshort. lia.
Qed.

(** X6. Away from NaN, [removeDuplicatesAndLimit] returns the best
    rated items: a valid item of the input is either stood for in the
    result by an item of its key rated at least as high, or the result
    is full and every item in it is rated at least as high. *)
Theorem DedupAndBound_keeps_the_best (movies : list MovieBrief) (limit : Z) :
  SortPermutes sortSlice -> SortSorts sortSlice ->
  noNaN ParseFloat movies ->
  forall m, m ∈ movies -> valid m = true ->
    (exists o, o ∈ dedupAndBound movies limit /\ K o = K m
               /\ f64_ge (ratingOf ParseFloat o) (ratingOf ParseFloat m) = true)
    \/ (Z.of_nat (length (dedupAndBound movies limit)) = Z.max 1 limit
        /\ forall o, o ∈ dedupAndBound movies limit ->
             f64_ge (ratingOf ParseFloat o) (ratingOf ParseFloat m) = true).
Proof.
  intros Hperm Hsorts Hnan m Hm Hvalid.
  rewrite removeDuplicatesAndLimit_passes.
  set (sorted := sortSlice less movies).
  set (kept := firstOccurrences K (List.filter valid sorted)).
  set (k := Z.to_nat (Z.max 1 limit)).
  assert (forall x, x ∈ List.filter valid sorted ->
            ratingOf ParseFloat x <> S754_nan) as Hnan'.
  { intros x Hx. apply list_elem_of_In, filter_In in Hx as [_ Hx].
    by apply valid_not_nan. }
  assert (descending less (List.filter valid sorted)) as Hdesc.
  { eapply descending_sublist; [apply filter_is_sublist|].
    apply Hsorts. by apply ratingLess_weakOrder. }
  assert (forall a b, ratingOf ParseFloat a <> S754_nan ->
            ratingOf ParseFloat b <> S754_nan -> less b a = false ->
            f64_ge (ratingOf ParseFloat a) (ratingOf ParseFloat b) = true) as Hge.
  { intros a b Ha Hb Hlt. rewrite ratingLess_eq in Hlt.
    by rewrite f64_ge_not_gt, Hlt. }
  assert (m ∈ List.filter valid sorted) as Hm'.
  { apply list_elem_of_In, filter_In. split; [|done].
    apply list_elem_of_In. unfold sorted. by rewrite (Hperm less movies). }
  destruct (firstOccurrences_leads K (fun a b => less b a = false)
              (List.filter valid sorted) Hdesc) with (x := m)
    as (o & Ho & Hkey & Hom); [|done|].
  { intros x Hx. rewrite ratingLess_eq.
    destruct (f64_gt _ _) eqn:Hgt; [|done]. by rewrite (f64_gt_asym _ _ Hgt) in Hgt. }
  fold kept in Ho.
  assert (forall x, x ∈ kept -> x ∈ List.filter valid sorted) as Hkept.
  { intros x Hx. eapply elem_of_sublist; [exact Hx|apply firstOccurrences_sublist]. }
  rewrite <- (take_drop k kept) in Ho. apply elem_of_app in Ho as [Ho|Ho].
  - left. exists o. split; [done|]. split; [done|].
    apply Hge; [apply Hnan', Hkept; by eapply elem_of_sublist, sublist_take
               |by apply Hnan'|done].
  - right. split.
    + rewrite length_take. apply list_elem_of_lookup_1 in Ho as [i Hi].
      apply lookup_lt_Some in Hi. rewrite length_drop in Hi. lia.
    + intros o' Ho'.
      assert (descending less kept) as Hdk.
      { eapply descending_sublist; [apply firstOccurrences_sublist|done]. }
      unfold descending in Hdk. rewrite <- (take_drop k kept) in Hdk.
      pose proof (StronglySorted_app_1_elem_of _ _ _ _ _ Hdk Ho' Ho) as Ho'o.
      simpl in Ho'o.
      assert (o ∈ kept) as Hin
          by (rewrite <- (take_drop k kept); apply elem_of_app; by right).
      assert (o' ∈ kept) as Hin'
          by (eapply elem_of_sublist; [exact Ho'|apply sublist_take]).
      apply Hge; [by apply Hnan', Hkept|by apply Hnan'|].
      rewrite ratingLess_eq in *.
      eapply f64_gt_negtrans; [|exact Hom|exact Ho'o].
      by apply Hnan', Hkept.
Qed.

(** X7. Away from NaN, what [removeDuplicatesAndLimit] returns is in
    rating order, each rating at least the next, for a [sort.Slice]
    that sorts. *)
Theorem DedupAndBound_ordered_without_NaN (movies : list MovieBrief) (limit : Z) :
  SortPermutes sortSlice -> SortSorts sortSlice ->
  noNaN ParseFloat movies ->
  ratingsNonIncreasing ParseFloat (dedupAndBound movies limit).
Proof. apply removeDuplicatesAndLimit_monotone. Qed.

(** X8. Away from NaN, running [removeDuplicatesAndLimit] on its own
    result with the same limit changes nothing, for a [sort.Slice] that
    sorts and leaves a sorted slice as it is. *)
Theorem DedupAndBound_idempotent_without_NaN
    (movies : list MovieBrief) (limit : Z) :
  SortPermutes sortSlice -> SortSorts sortSlice -> SortKeepsSorted sortSlice ->
  noNaN ParseFloat movies ->
  dedupAndBound (dedupAndBound movies limit) limit = dedupAndBound movies limit.
Proof. apply removeDuplicatesAndLimit_idempotent. Qed.

End Passes.

(** *** On the sample list *)

Lemma sample_without_NaN :
  noNaN strconv.ParseFloat
    [Demo.movie "A" "2000" "N/A"; Demo.movie "B" "2001" "7.5";
     Demo.movie "b" "2001" "7.0"; Demo.movie "D" "2001" "9.1"].
Proof.
  intros m Hm. repeat (apply elem_of_cons in Hm as [->|Hm]); try by vm_compute.
  by apply elem_of_nil in Hm.
Qed.

Lemma DedupAndBound_members_witness :
  Demo.movie "D" "2001" "9.1"
    ∈ [Demo.movie "A" "2000" "N/A"; Demo.movie "B" "2001" "7.5";
       Demo.movie "b" "2001" "7.0"; Demo.movie "D" "2001" "9.1"]
  /\ validRating strconv.ParseFloat (Demo.movie "D" "2001" "9.1") = true.
Proof.
  destruct (DedupAndBound_members strings.ToLowerASCII strconv.ParseFloat
              (@sort.SliceShort MovieBrief)
              [Demo.movie "A" "2000" "N/A"; Demo.movie "B" "2001" "7.5";
               Demo.movie "b" "2001" "7.0"; Demo.movie "D" "2001" "9.1"] 20
              SliceShort_permutes) as [Hmembers _].
  apply Hmembers. apply list_elem_of_In. vm_compute. left. reflexivity.
Defined.

Lemma DedupAndBound_keeps_the_best_witness :
  (exists o,
      o ∈ Demo.dedupAndBound
            [Demo.movie "A" "2000" "N/A"; Demo.movie "B" "2001" "7.5";
             Demo.movie "b" "2001" "7.0"; Demo.movie "D" "2001" "9.1"] 20
      /\ canonicalKey strings.ToLowerASCII o
         = canonicalKey strings.ToLowerASCII (Demo.movie "b" "2001" "7.0")
      /\ f64_ge (ratingOf strconv.ParseFloat o)
                (ratingOf strconv.ParseFloat (Demo.movie "b" "2001" "7.0")) = true)
  \/ (Z.of_nat (length (Demo.dedupAndBound
                          [Demo.movie "A" "2000" "N/A"; Demo.movie "B" "2001" "7.5";
                           Demo.movie "b" "2001" "7.0"; Demo.movie "D" "2001" "9.1"]
                          20))
      = Z.max 1 20
      /\ forall o,
           o ∈ Demo.dedupAndBound
                 [Demo.movie "A" "2000" "N/A"; Demo.movie "B" "2001" "7.5";
                  Demo.movie "b" "2001" "7.0"; Demo.movie "D" "2001" "9.1"] 20 ->
           f64_ge (ratingOf strconv.ParseFloat o)
                  (ratingOf strconv.ParseFloat (Demo.movie "b" "2001" "7.0"))
           = true).
Proof.
  apply (DedupAndBound_keeps_the_best strings.ToLowerASCII strconv.ParseFloat
           (@sort.SliceShort MovieBrief)
           [Demo.movie "A" "2000" "N/A"; Demo.movie "B" "2001" "7.5";
            Demo.movie "b" "2001" "7.0"; Demo.movie "D" "2001" "9.1"] 20
           SliceShort_permutes SliceShort_is_sorting sample_without_NaN
           (Demo.movie "b" "2001" "7.0")).
  - apply list_elem_of_In. simpl. tauto.
  - by vm_compute.
Defined.

Lemma DedupAndBound_ordered_without_NaN_witness :
  ratingsNonIncreasing strconv.ParseFloat
    (Demo.dedupAndBound
       [Demo.movie "A" "2000" "N/A"; Demo.movie "B" "2001" "7.5";
        Demo.movie "b" "2001" "7.0"; Demo.movie "D" "2001" "9.1"] 20).
Proof.
  exact (DedupAndBound_ordered_without_NaN strings.ToLowerASCII
           strconv.ParseFloat (@sort.SliceShort MovieBrief)
           [Demo.movie "A" "2000" "N/A"; Demo.movie "B" "2001" "7.5";
            Demo.movie "b" "2001" "7.0"; Demo.movie "D" "2001" "9.1"] 20
           SliceShort_permutes SliceShort_is_sorting sample_without_NaN).
Defined.

Lemma DedupAndBound_idempotent_without_NaN_witness :
  Demo.dedupAndBound
    (Demo.dedupAndBound
       [Demo.movie "A" "2000" "N/A"; Demo.movie "B" "2001" "7.5";
        Demo.movie "b" "2001" "7.0"; Demo.movie "D" "2001" "9.1"] 20) 20
  = Demo.dedupAndBound
      [Demo.movie "A" "2000" "N/A"; Demo.movie "B" "2001" "7.5";
       Demo.movie "b" "2001" "7.0"; Demo.movie "D" "2001" "9.1"] 20.
Proof.
  exact (DedupAndBound_idempotent_without_NaN strings.ToLowerASCII
           strconv.ParseFloat (@sort.SliceShort MovieBrief)
           [Demo.movie "A" "2000" "N/A"; Demo.movie "B" "2001" "7.5";
            Demo.movie "b" "2001" "7.0"; Demo.movie "D" "2001" "9.1"] 20
           SliceShort_permutes SliceShort_is_sorting SliceShort_keeps_sorted
           sample_without_NaN).
Defined.


(** ** The resolvers and the pipelines, request by request *)

Section Requests.

Variable ToLower : string -> string.
Variable EqualFold : string -> string -> bool.
Variable ParseFloat : string -> float64 * option error.
Variable sortSlice :
  (MovieBrief -> MovieBrief -> bool) -> list MovieBrief -> list MovieBrief.
Variable World : Type.
Variable ClientGet : URL -> World -> HttpResult * World.
Variable UnmarshalOMDb : string -> error + OMDbResponse.
Variable UnmarshalSearch : string -> error + SearchResponse.

Local Abbreviation lookupTitle := (GetMovieByTitle World ClientGet UnmarshalOMDb).
Local Abbreviation search := (searchRequest World ClientGet UnmarshalSearch).
Local Abbreviation resolve :=
  (resolveHits ToLower World ClientGet UnmarshalOMDb).
Local Abbreviation resolveExcluding :=
  (resolveHitsExcluding EqualFold World ClientGet UnmarshalOMDb).
Local Abbreviation searchByGenre :=
  (searchMovies ToLower World ClientGet UnmarshalOMDb UnmarshalSearch).
Local Abbreviation searchForRecommendation :=
  (searchMoviesForRecommendation EqualFold World ClientGet UnmarshalOMDb
     UnmarshalSearch).
Local Abbreviation genrePipeline :=
  (SearchMoviesByGenre ToLower ParseFloat sortSlice World ClientGet
     UnmarshalOMDb UnmarshalSearch).
Local Abbreviation recommendationPipeline :=
  (GetMovieRecommendations ToLower EqualFold ParseFloat sortSlice World
     ClientGet UnmarshalOMDb UnmarshalSearch).
Local Abbreviation genres :=
  (genreTier EqualFold World ClientGet UnmarshalOMDb UnmarshalSearch).
Local Abbreviation directors :=
  (directorTier EqualFold World ClientGet UnmarshalOMDb UnmarshalSearch).
Local Abbreviation actors :=
  (actorTier EqualFold World ClientGet UnmarshalOMDb UnmarshalSearch).
Local Abbreviation genreHandler :=
  (MovieHandler_GetMoviesByGenre ToLower ParseFloat sortSlice World ClientGet
     UnmarshalOMDb UnmarshalSearch).
Local Abbreviation recommendationHandler :=
  (MovieHandler_GetMovieRecommendations ToLower EqualFold ParseFloat sortSlice
     World ClientGet UnmarshalOMDb UnmarshalSearch).
Local Abbreviation requestsOf := (requests World).

(** *** Candidate resolver *)

Lemma resolve_requests (s : OMDbService) (genre : string)
    (hits : list SearchResult) :
  forall movies st,
    requestsOf (resolve s genre hits movies st).2
    = requestsOf st ++ (lookupURL s ∘ sr_Title <$> hits).
Proof.
  induction hits as [|hit hits IH]; intros movies st; simpl.
  - by rewrite app_nil_r.
  - unfold bind.
    pose proof (lookup_requests World ClientGet UnmarshalOMDb s (sr_Title hit) st)
      as H.
    destruct (lookupTitle s (sr_Title hit) st) as [[err|details] st'];
      simpl in H.
    + by rewrite IH, H, <- app_assoc.
    + destruct (String.eqb _ _); [by rewrite IH, H, <- app_assoc|].
      destruct (strings.Contains _ _); by rewrite IH, H, <- app_assoc.
Qed.

Lemma resolve_results (s : OMDbService) (genre : string)
    (hits : list SearchResult) :
  forall movies st,
    exists found,
      (resolve s genre hits movies st).1 = movies ++ found
      /\ (length found <= length hits)%nat
      /\ Forall (fun m => strings.Contains (ToLower (mb_Genre m)) (ToLower genre)
                          = true) found.
Proof.
  induction hits as [|hit hits IH]; intros movies st; simpl.
  - exists []. by rewrite app_nil_r.
  - unfold bind.
    assert (forall st', exists found,
               (resolve s genre hits movies st').1 = movies ++ found
               /\ (length found <= S (length hits))%nat
               /\ Forall (fun m => strings.Contains (ToLower (mb_Genre m))
                                     (ToLower genre) = true) found) as Hskip.
    { intros st'. destruct (IH movies st') as (found & ? & ? & ?).
      exists found. repeat split; [done|lia|done]. }
    destruct (lookupTitle s (sr_Title hit) st) as [[err|details] st'];
      [apply Hskip|].
    destruct (String.eqb _ _); [apply Hskip|].
    destruct (strings.Contains _ _) eqn:Hgenre; [|apply Hskip].
    destruct (IH (movies ++ [briefOf details]) st') as (found & -> & Hlen & Hall).
    exists (briefOf details :: found). rewrite <- app_assoc.
    repeat split; [simpl; lia|]. by constructor.
Qed.

(** X9. A search with a genre constraint makes one request for the
    search and then, when the search is answered with hits, one lookup
    per hit, by the title of the hit and in the order of the hits; a
    failed search or one answered "False" costs the one request. *)
Theorem searchMovies_requests
    (s : OMDbService) (term genre : string) (st st1 : State World)
    (r : error + SearchResponse) :
  search s term st = (r, st1) ->
  requestsOf (searchByGenre s term genre st).2
  = requestsOf st
    ++ searchURL s term
       :: match r with
          | inl _ => []
          | inr resp =>
              if String.eqb (sr_Response resp) "False" then []
              else lookupURL s ∘ sr_Title <$> Search resp
          end.
Proof.
  intros Hsearch. unfold searchMovies, bind, ret.
  pose proof (search_requests World ClientGet UnmarshalSearch s term st) as H.
  rewrite Hsearch in *. simpl in H.
  destruct r as [err|resp]; [done|].
  destruct (String.eqb _ _); [done|].
  pose proof (resolve_requests s genre (Search resp) [] st1) as H'.
  destruct (resolve s genre (Search resp) [] st1) as [movies st2]. simpl in *.
  by rewrite H', H, <- app_assoc.
Qed.

(** X10. What a search with a genre constraint returns has at most one
    item per hit, and the genre field of each item contains the target
    genre, letter case aside. *)
Theorem searchMovies_results_match_genre
    (s : OMDbService) (term genre : string) (st st1 st' : State World)
    (resp : SearchResponse) (movies : list MovieBrief) :
  search s term st = (inr resp, st1) ->
  searchByGenre s term genre st = (inr movies, st') ->
  (length movies <= length (Search resp))%nat
  /\ Forall (fun m => strings.Contains (ToLower (mb_Genre m)) (ToLower genre)
                      = true) movies.
Proof.
  intros Hsearch. unfold searchMovies, bind, ret. rewrite Hsearch.
  destruct (String.eqb _ _).
  - intros [= <- _]. split; [simpl; lia|constructor].
  - destruct (resolve_results s genre (Search resp) [] st1)
      as (found & Hfound & Hlen & Hall).
    destruct (resolve s genre (Search resp) [] st1) as [ms st2].
    simpl in Hfound. subst ms. by intros [= <- _].
Qed.

Lemma resolveExcluding_requests (s : OMDbService) (excludeTitle : string)
    (hits : list SearchResult) :
  forall movies st,
    requestsOf (resolveExcluding s excludeTitle hits movies st).2
    = requestsOf st
      ++ (lookupURL s ∘ sr_Title
          <$> List.filter (fun hit => negb (EqualFold (sr_Title hit) excludeTitle))
                hits).
Proof.
  induction hits as [|hit hits IH]; intros movies st; simpl.
  - by rewrite app_nil_r.
  - destruct (EqualFold _ _); simpl; [apply IH|].
    unfold bind.
    pose proof (lookup_requests World ClientGet UnmarshalOMDb s (sr_Title hit) st)
      as H.
    destruct (lookupTitle s (sr_Title hit) st) as [[err|details] st'];
      simpl in H.
    + by rewrite IH, H, <- app_assoc.
    + destruct (String.eqb _ _); by rewrite IH, H, <- app_assoc.
Qed.

(** X11. A search for recommendations makes one request for the search
    and then one lookup for each hit whose title is not, letter case
    aside, the title to exclude; no lookup is made for the excluded
    title. *)
Theorem searchMoviesForRecommendation_requests
    (s : OMDbService) (term excludeTitle : string) (st st1 : State World)
    (r : error + SearchResponse) :
  search s term st = (r, st1) ->
  requestsOf (searchForRecommendation s term excludeTitle st).2
  = requestsOf st
    ++ searchURL s term
       :: match r with
          | inl _ => []
          | inr resp =>
              if String.eqb (sr_Response resp) "False" then []
              else lookupURL s ∘ sr_Title
                   <$> List.filter
                         (fun hit => negb (EqualFold (sr_Title hit) excludeTitle))
                         (Search resp)
          end.
Proof.
  intros Hsearch. unfold searchMoviesForRecommendation, bind, ret.
  pose proof (search_requests World ClientGet UnmarshalSearch s term st) as H.
  rewrite Hsearch in *. simpl in H.
  destruct r as [err|resp]; [done|].
  destruct (String.eqb _ _); [done|].
  pose proof (resolveExcluding_requests s excludeTitle (Search resp) [] st1) as H'.
  destruct (resolveExcluding s excludeTitle (Search resp) [] st1) as [movies st2].
  simpl in *. by rewrite H', H, <- app_assoc.
Qed.

(** *** Single-title lookup *)

(** X12. A single-title lookup makes exactly one request, for the
    title and type [movie], whatever the outcome; when it fails, the
    error names the stage that failed: the request, the reading of the
    body, or its decoding. *)
Theorem GetMovieByTitle_one_request
    (s : OMDbService) (title : string) (st : State World) :
  requestsOf (lookupTitle s title st).2 = requestsOf st ++ [lookupURL s title]
  /\ forall err, (lookupTitle s title st).1 = inl err ->
       exists cause,
         err = "failed to make request: " +:+ cause
         \/ err = "failed to read response: " +:+ cause
         \/ err = "failed to parse response: " +:+ cause.
Proof.
  split; [apply lookup_requests|].
  unfold GetMovieByTitle, makeRequest, bind, ret.
  destruct (httpGet _ _ _ st) as [[e|e|body] st']; simpl.
  - intros err [= <-]. eauto.
  - intros err [= <-]. eauto.
  - destruct (UnmarshalOMDb body) as [e|record]; simpl; [|done].
    intros err [= <-]. eauto.
Qed.

(** *** Genre ranking pipeline *)

(** X13. For a [sort.Slice] that sorts, what the genre pipeline returns
    is a ranked set: at most 15 items, each rating at least the next,
    no two items with the same key, every rating valid, and every genre
    field containing the genre asked for. *)
Theorem SearchMoviesByGenre_returns_ranked_set
    (s : OMDbService) (genre : string) (st : State World)
    (movies : list MovieBrief) :
  SortPermutes sortSlice -> SortSorts sortSlice ->
  (genrePipeline s genre st).1 = inr movies ->
  (length movies <= 15)%nat
  /\ ratingsNonIncreasing ParseFloat movies
  /\ NoDup (canonicalKey ToLower <$> movies)
  /\ Forall (fun m => genreMatches ToLower genre ParseFloat m = true) movies.
Proof.
  intros Hperm Hsorts Hrun.
  destruct (SearchMoviesByGenre_ranked ToLower ParseFloat sortSlice World
              ClientGet UnmarshalOMDb UnmarshalSearch s genre st movies
              Hperm Hsorts Hrun) as (Hmono & Hkeys & _ & Hlen).
  split; [done|]. split; [done|]. split; [done|].
  revert Hrun Hmono Hkeys Hlen. rewrite genrePipeline_run. cbv zeta. cbn [fst].
  set (allMovies := (termLoop _ _ _ _ _ _ _ _ _ _).1).
  set (unique := removeDuplicatesAndFilter ToLower ParseFloat allMovies genre).
  intros [= <-] _ _ _.
  assert (Forall (fun m => genreMatches ToLower genre ParseFloat m = true)
            (sortSlice (ratingLess ParseFloat) unique)) as Hall.
  { rewrite (Hperm _ unique). apply Forall_forall.
    apply removeDuplicatesAndFilter_passes. }
  destruct (_ >? 15); [|done].
  rewrite Forall_forall in Hall |- *. intros m Hm. apply Hall.
  eapply elem_of_sublist; [exact Hm|apply sublist_take].
Qed.


(** *** Recommendation pipeline *)

Lemma lookups_issue_no_term (s : OMDbService) (titles : list string) :
  omap searchTermOf (lookupURL s <$> titles) = [].
Proof. by induction titles. Qed.

Lemma searchForRecommendation_issuedTerms
    (s : OMDbService) (term excludeTitle : string) (st : State World) :
  issuedTerms (searchForRecommendation s term excludeTitle st).2
  = issuedTerms st ++ [term].
Proof.
  unfold issuedTerms, searchMoviesForRecommendation, bind, ret.
  pose proof (search_requests World ClientGet UnmarshalSearch s term st) as H.
  destruct (search s term st) as [[err|resp] st1]; simpl in H.
  - simpl. by rewrite H, omap_app.
  - destruct (String.eqb _ _); [simpl; by rewrite H, omap_app|].
    pose proof (resolveExcluding_requests s excludeTitle (Search resp) [] st1)
      as H'.
    destruct (resolveExcluding s excludeTitle (Search resp) [] st1)
      as [movies st2].
    simpl in *. rewrite H', H, !omap_app, list_fmap_compose.
    rewrite lookups_issue_no_term. simpl. by rewrite app_nil_r.
Qed.

Lemma genreTier_issuedTerms (s : OMDbService) (favoriteTitle : string)
    (values : list string) :
  forall movies st,
    issuedTerms (genres s favoriteTitle values movies st).2
    = issuedTerms st ++ values.
Proof.
  induction values as [|value rest IH]; intros movies st; simpl.
  - by rewrite app_nil_r.
  - unfold bind.
    pose proof (searchForRecommendation_issuedTerms s value favoriteTitle st)
      as H.
    destruct (searchForRecommendation s value favoriteTitle st)
      as [[err|found] st1]; simpl in H; by rewrite IH, H, <- app_assoc.
Qed.

Lemma directorTier_issuedTerms (s : OMDbService) (favoriteTitle : string)
    (values : list string) :
  forall movies st,
    issuedTerms (directors s favoriteTitle values movies st).2
    = issuedTerms st ++ List.filter named values.
Proof.
  induction values as [|value rest IH]; intros movies st; simpl.
  - by rewrite app_nil_r.
  - destruct (named value); [|apply IH]. unfold bind.
    pose proof (searchForRecommendation_issuedTerms s value favoriteTitle st)
      as H.
    destruct (searchForRecommendation s value favoriteTitle st)
      as [[err|found] st1]; simpl in H; by rewrite IH, H, <- app_assoc.
Qed.

Lemma actorTier_issuedTerms (s : OMDbService) (favoriteTitle : string)
    (values : list string) :
  forall i movies st,
    issuedTerms (actors s favoriteTitle i values movies st).2
    = issuedTerms st ++ List.filter named (take (Z.to_nat (2 - i)) values).
Proof.
  induction values as [|value rest IH]; intros i movies st; simpl.
  - by rewrite take_nil, app_nil_r.
  - destruct (i >=? 2) eqn:Hi.
    + rewrite Z.geb_leb in Hi. apply Z.leb_le in Hi.
      replace (Z.to_nat (2 - i)) with 0%nat by lia. simpl. by rewrite app_nil_r.
    + rewrite Z.geb_leb in Hi. apply Z.leb_gt in Hi.
      replace (Z.to_nat (2 - i)) with (S (Z.to_nat (2 - (i + 1)))) by lia.
      simpl. destruct (named value); [|apply IH]. unfold bind.
      pose proof (searchForRecommendation_issuedTerms s value favoriteTitle st)
        as H.
      destruct (searchForRecommendation s value favoriteTitle st)
        as [[err|found] st1]; simpl in H; by rewrite IH, H, <- app_assoc.
Qed.

(** X15. Once the seed is found, the recommendation pipeline searches
    for every genre of the seed, then for every director other than
    "N/A" and the empty string, then for those of the first two actors
    that are neither, in that order, whatever the searches return. *)
Theorem GetMovieRecommendations_search_terms
    (s : OMDbService) (favoriteTitle : string) (st st1 : State World)
    (seed : OMDbResponse) :
  lookupTitle s favoriteTitle st = (inr seed, st1) ->
  Response seed <> "False" ->
  issuedTerms (recommendationPipeline s favoriteTitle st).2
  = issuedTerms st
    ++ strings.Split (Genre seed) ", "
    ++ List.filter named (strings.Split (Director seed) ", ")
    ++ List.filter named (take 2 (strings.Split (Actors seed) ", ")).
Proof.
  intros Hseed Hfound.
  pose proof (lookup_issuedTerms World ClientGet UnmarshalOMDb s favoriteTitle st)
    as H0.
  unfold GetMovieRecommendations, bind, ret. rewrite Hseed in *. simpl in H0.
  apply String.eqb_neq in Hfound. rewrite Hfound.
  pose proof (genreTier_issuedTerms s favoriteTitle
                (strings.Split (Genre seed) ", ") [] st1) as H1.
  destruct (genres s favoriteTitle _ [] st1) as [level1 st2].
  pose proof (directorTier_issuedTerms s favoriteTitle
                (strings.Split (Director seed) ", ") [] st2) as H2.
  destruct (directors s favoriteTitle _ [] st2) as [level2 st3].
  pose proof (actorTier_issuedTerms s favoriteTitle
                (strings.Split (Actors seed) ", ") 0 [] st3) as H3.
  destruct (actors s favoriteTitle 0 _ [] st3) as [level3 st4].
  simpl in *. rewrite H3, H2, H1, H0, <- !app_assoc. done.
Qed.

(** X16. A response of the recommendation pipeline repeats the seed
    and lists its tiers by level, each level once and in rising order;
    a tier has the description of its level and between 1 and 20
    movies, no two with the same key, each with a valid rating. *)
Theorem GetMovieRecommendations_tiers
    (s : OMDbService) (favoriteTitle : string) (st st' : State World)
    (response : RecommendationResponse) :
  recommendationPipeline s favoriteTitle st = (inr response, st') ->
  (exists seed st1,
      lookupTitle s favoriteTitle st = (inr seed, st1)
      /\ FavoriteMovie response = briefOf seed)
  /\ StronglySorted Z.lt (Level <$> Recommendations response)
  /\ Forall (fun tier =>
               ((Level tier = 1 /\ Description tier = "Movies in the same genre")
                \/ (Level tier = 2
                    /\ Description tier = "Movies by the same director")
                \/ (Level tier = 3
                    /\ Description tier = "Movies with the same main actors"))
               /\ 1 <= Z.of_nat (length (Movies tier)) <= 20
               /\ NoDup (canonicalKey ToLower <$> Movies tier)
               /\ Forall (fun m => validRating ParseFloat m = true) (Movies tier))
            (Recommendations response).
Proof.
  unfold GetMovieRecommendations, bind, ret.
  destruct (lookupTitle s favoriteTitle st) as [[err|seed] st1]; [done|].
  destruct (String.eqb _ _); [done|].
  destruct (genres s favoriteTitle _ [] st1) as [level1 st2].
  destruct (directors s favoriteTitle _ [] st2) as [level2 st3].
  destruct (actors s favoriteTitle 0 _ [] st3) as [level3 st4].
  intros [= <- _]. cbn [FavoriteMovie Recommendations].
  split; [by exists seed, st1|].
  assert (forall level, exists tier,
             removeDuplicatesAndLimit ToLower ParseFloat sortSlice level 20 = tier
             /\ Z.of_nat (length tier) <= 20
             /\ NoDup (canonicalKey ToLower <$> tier)
             /\ Forall (fun m => validRating ParseFloat m = true) tier) as Htier.
  { intros level. eexists. split; [reflexivity|]. split; [|split].
    - apply removeDuplicatesAndLimit_bound. lia.
    - apply removeDuplicatesAndLimit_keys.
    - apply removeDuplicatesAndLimit_kept. }
  destruct (Htier level1) as (t1 & -> & Hlen1 & Hkeys1 & Hval1).
  destruct (Htier level2) as (t2 & -> & Hlen2 & Hkeys2 & Hval2).
  destruct (Htier level3) as (t3 & -> & Hlen3 & Hkeys3 & Hval3).
  split.
  - unfold appendTier.
    destruct t1, t2, t3; simpl; repeat constructor; lia.
  - repeat apply appendTier_Forall; [constructor|..]; intros Hne; simpl;
      (split; [tauto|]); (split; [|done]);
      match goal with
      | |- _ <= Z.of_nat (length ?t) <= _ => destruct t; [done|simpl in *; lia]
      end.
Qed.

(** X17. The status the recommendation handler answers with is decided
    by the seed lookup alone: 500 when it fails, 404 when the provider
    answers "False", 200 otherwise, whatever the searches that follow
    return. *)
Theorem GetMovieRecommendations_status
    (s : OMDbService) (favoriteTitle : string) (st st1 : State World)
    (r : error + OMDbResponse) :
  favoriteTitle <> "" ->
  lookupTitle s favoriteTitle st = (r, st1) ->
  statusOf (recommendationHandler s favoriteTitle st).1
  = match r with
    | inl _ => StatusInternalServerError
    | inr seed =>
        if String.eqb (Response seed) "False" then StatusNotFound else StatusOK
    end.
Proof.
  intros Hne Hseed.
  unfold MovieHandler_GetMovieRecommendations, bind, ret.
  apply String.eqb_neq in Hne. rewrite Hne.
  unfold GetMovieRecommendations, bind, ret. rewrite Hseed.
  destruct r as [err|seed].
  - pose proof (lookup_error_message World ClientGet UnmarshalOMDb s
                  favoriteTitle favoriteTitle st st1 err Hseed) as Hmsg.
    apply String.eqb_neq in Hmsg. by rewrite Hmsg.
  - destruct (String.eqb (Response seed) "False").
    + by rewrite String.eqb_refl.
    + destruct (genres s favoriteTitle _ [] st1) as [level1 st2].
      destruct (directors s favoriteTitle _ [] st2) as [level2 st3].
      by destruct (actors s favoriteTitle 0 _ [] st3) as [level3 st4].
Qed.

End Requests.

(** ** Numbers in query parameters *)

Lemma readDigits_string_of_uint (d : Decimal.uint) :
  forall acc count,
    strconv.readDigits (NilEmpty.string_of_uint d) acc count
    = (digitsValue d acc, (count + Decimal.nb_digits d)%nat, EmptyString).
Proof.
  induction d; intros acc count; simpl; [by rewrite Nat.add_0_r|..];
    rewrite IHd;
    match goal with
    | |- context [strconv.digitVal ?c] =>
        let v := eval vm_compute in (strconv.digitVal c) in
        change (strconv.digitVal c) with v
    end;
    by rewrite ?Z.add_0_r, Nat.add_succ_r.
Qed.

Lemma of_uint_acc_value (d : Decimal.uint) :
  forall p, Z.pos (Pos.of_uint_acc d p) = digitsValue d (Z.pos p).
Proof.
  induction d; intros p; simpl; [done|..]; rewrite IHd; f_equal;
    lia.
Qed.

Lemma of_uint_value (d : Decimal.uint) :
  Z.of_N (Pos.of_uint d) = digitsValue d 0.
Proof.
  induction d; simpl; [done|done|..]; by rewrite of_uint_acc_value.
Qed.

Lemma to_uint_value (p : positive) : digitsValue (Pos.to_uint p) 0 = Z.pos p.
Proof. by rewrite <- of_uint_value, DecimalPos.Unsigned.of_to. Qed.

Lemma to_uint_nonnil (p : positive) : Pos.to_uint p <> Decimal.Nil.
Proof.
  intros H. pose proof (to_uint_value p) as Hv. rewrite H in Hv. done.
Qed.

Lemma Atoi_digits (d : Decimal.uint) :
  d <> Decimal.Nil ->
  Atoi (NilEmpty.string_of_uint d)
  = (if digitsValue d 0 >=? 2 ^ 63
     then (2 ^ 63 - 1,
           Some (strconv.ErrRange "Atoi" (NilEmpty.string_of_uint d)))
     else (digitsValue d 0, None))
  /\ Atoi (String "-" (NilEmpty.string_of_uint d))
     = (if digitsValue d 0 >? 2 ^ 63
        then (- 2 ^ 63,
              Some (strconv.ErrRange "Atoi"
                      (String "-" (NilEmpty.string_of_uint d))))
        else (- digitsValue d 0, None)).
Proof.
  intros Hd.
  assert (exists n, Decimal.nb_digits d = S n) as [n Hn]
      by (destruct d; [done|simpl; eauto..]).
  split.
  - assert (Atoi (NilEmpty.string_of_uint d)
            = let '(n, count, rest) :=
                strconv.readDigits (NilEmpty.string_of_uint d) 0 O in
              match rest, count with
              | EmptyString, S _ =>
                  if n >=? 2 ^ 63
                  then (2 ^ 63 - 1,
                        Some (strconv.ErrRange "Atoi"
                                (NilEmpty.string_of_uint d)))
                  else (n, None)
              | _, _ => (0, Some (strconv.ErrSyntax "Atoi"
                                    (NilEmpty.string_of_uint d)))
              end) as ->
        by (destruct d; [done|reflexivity..]).
    rewrite readDigits_string_of_uint, Hn. done.
  - unfold Atoi. rewrite readDigits_string_of_uint, Hn. done.
Qed.

Lemma string_of_uint_nonnil (d : Decimal.uint) :
  d <> Decimal.Nil -> NilZero.string_of_uint d = NilEmpty.string_of_uint d.
Proof. by destruct d. Qed.

(** [strconv.Atoi] reads back what [strconv.Itoa] writes, for every
    number of type int. *)
Lemma Atoi_Itoa (n : Z) :
  - 2 ^ 63 <= n < 2 ^ 63 -> Atoi (strconv.Itoa n) = (n, None).
Proof.
  intros Hn. unfold strconv.Itoa. destruct n as [|p|p].
  - reflexivity.
  - change (NilZero.string_of_int (Z.to_int (Z.pos p)))
      with (NilZero.string_of_uint (Pos.to_uint p)).
    rewrite string_of_uint_nonnil by apply to_uint_nonnil.
    destruct (Atoi_digits (Pos.to_uint p) (to_uint_nonnil p)) as [-> _].
    rewrite to_uint_value.
    destruct (_ >=? _) eqn:Hge; [|done].
    rewrite Z.geb_leb in Hge. apply Z.leb_le in Hge. lia.
  - change (NilZero.string_of_int (Z.to_int (Z.neg p)))
      with (String "-" (NilZero.string_of_uint (Pos.to_uint p))).
    rewrite string_of_uint_nonnil by apply to_uint_nonnil.
    destruct (Atoi_digits (Pos.to_uint p) (to_uint_nonnil p)) as [_ ->].
    rewrite to_uint_value.
    destruct (_ >? _) eqn:Hgt; [|done].
    rewrite Z.gtb_ltb in Hgt. apply Z.ltb_lt in Hgt. lia.
Qed.

Lemma Itoa_nonempty (n : Z) : - 2 ^ 63 <= n < 2 ^ 63 -> strconv.Itoa n <> "".
Proof. intros Hn Hempty. pose proof (Atoi_Itoa n Hn) as H. by rewrite Hempty in H. Qed.

(** ** The detail handlers *)

Section DetailFacts.

Variable World : Type.
Variable ClientGet : URL -> World -> HttpResult * World.
Variable UnmarshalRecord : string -> error + OMDbRecord.

Local Abbreviation lookupRecord :=
  (GetMovieRecordByTitle World ClientGet UnmarshalRecord).
Local Abbreviation lookupEpisode :=
  (GetEpisodeDetails World ClientGet UnmarshalRecord).
Local Abbreviation movieHandler :=
  (MovieHandler_GetMovieDetails World ClientGet UnmarshalRecord).
Local Abbreviation episodeHandler :=
  (MovieHandler_GetEpisodeDetails World ClientGet UnmarshalRecord).
Local Abbreviation requestsOf := (requests World).

Lemma makeRequestRecord_requests (s : OMDbService) (params : Values)
    (st : State World) :
  requestsOf (makeRequestRecord World ClientGet UnmarshalRecord s params st).2
  = requestsOf st ++ [{| base := BaseURL s; query := params |}].
Proof.
  unfold makeRequestRecord, bind, ret.
  pose proof (httpGet_requests World ClientGet
                {| base := BaseURL s; query := params |} st) as H.
  destruct (httpGet _ _ _ st) as [[err|err|body] st']; simpl in *; [done..|].
  by destruct (UnmarshalRecord body).
Qed.

(** The lookup of the pipelines is the lookup of the detail handlers
    seen through the fields the pipelines read. *)
Lemma GetMovieByTitle_reads_record (s : OMDbService) (title : string)
    (st : State World) :
  GetMovieByTitle World ClientGet
    (fun body =>
       match UnmarshalRecord body with
       | inl err => inl err
       | inr record => inr (read record)
       end) s title st
  = (match (lookupRecord s title st).1 with
     | inl err => inl err
     | inr record => inr (read record)
     end, (lookupRecord s title st).2).
Proof.
  unfold GetMovieByTitle, GetMovieRecordByTitle, makeRequest, makeRequestRecord,
    bind, ret.
  destruct (httpGet _ _ _ st) as [[err|err|body] st']; [done..|].
  by destruct (UnmarshalRecord body).
Qed.

(** X18. The movie handler makes no request when the title is missing
    and answers 400; otherwise it makes the one lookup, and answers 500
    when the lookup fails, 404 with the provider's own message when the
    provider answers "False", and 200 otherwise. *)
Theorem GetMovieDetails_reply
    (s : OMDbService) (title : string) (st : State World) :
  (title = "" ->
   (movieHandler s title st).2 = st
   /\ detailStatus (movieHandler s title st).1 = StatusBadRequest)
  /\ (title <> "" ->
      requestsOf (movieHandler s title st).2
      = requestsOf st ++ [lookupURL s title]
      /\ match (lookupRecord s title st).1 with
         | inl _ =>
             detailStatus (movieHandler s title st).1 = StatusInternalServerError
         | inr movie =>
             if String.eqb (Response (read movie)) "False"
             then (movieHandler s title st).1
                  = detailError StatusNotFound "Not Found" (Error movie)
             else detailStatus (movieHandler s title st).1 = StatusOK
         end).
Proof.
  split.
  - intros ->. done.
  - intros Hne. unfold MovieHandler_GetMovieDetails, bind, ret.
    apply String.eqb_neq in Hne. rewrite Hne.
    pose proof (makeRequestRecord_requests s
                  [("apikey", APIKey s); ("t", title); ("type", "movie")] st)
      as H.
    unfold GetMovieRecordByTitle in *.
    destruct (makeRequestRecord _ _ _ _ _ st) as [[err|movie] st']; simpl in *;
      [done|].
    destruct (String.eqb (Response (read movie)) "False"); simpl;
      (split; [exact H|done]).
Qed.

(** The URL of an episode lookup. *)
Lemma GetEpisodeDetails_requests (s : OMDbService) (seriesTitle : string)
    (season episode : Z) (st : State World) :
  requestsOf (lookupEpisode s seriesTitle season episode st).2
  = requestsOf st ++ [episodeURL s seriesTitle season episode].
Proof. apply makeRequestRecord_requests. Qed.

Lemma episodeHandler_rejects (s : OMDbService)
    (seriesTitle seasonStr episodeStr : string) (st : State World) :
  seriesTitle = "" \/ (Atoi seasonStr).2 <> None \/ (Atoi episodeStr).2 <> None ->
  (episodeHandler s seriesTitle seasonStr episodeStr st).2 = st
  /\ detailStatus (episodeHandler s seriesTitle seasonStr episodeStr st).1
     = StatusBadRequest.
Proof.
  intros Hbad. unfold MovieHandler_GetEpisodeDetails.
  destruct (String.eqb seriesTitle "" || String.eqb seasonStr ""
            || String.eqb episodeStr "") eqn:Hempty; [done|].
  apply orb_false_iff in Hempty as [[Htitle _]%orb_false_iff _].
  apply String.eqb_neq in Htitle.
  destruct (Atoi seasonStr) as [season [err|]]; [done|].
  destruct (Atoi episodeStr) as [episode [err|]]; [done|].
  simpl in Hbad. tauto.
Qed.

Lemma episodeHandler_accepts (s : OMDbService)
    (seriesTitle seasonStr episodeStr : string) (season episode : Z)
    (st : State World) :
  seriesTitle <> "" ->
  Atoi seasonStr = (season, None) -> Atoi episodeStr = (episode, None) ->
  requestsOf (episodeHandler s seriesTitle seasonStr episodeStr st).2
  = requestsOf st ++ [episodeURL s seriesTitle season episode]
  /\ detailStatus (episodeHandler s seriesTitle seasonStr episodeStr st).1
     = match (lookupEpisode s seriesTitle season episode st).1 with
       | inl _ => StatusInternalServerError
       | inr details =>
           if String.eqb (Response (read details)) "False"
           then StatusNotFound else StatusOK
       end.
Proof.
  intros Htitle Hseason Hepisode. unfold MovieHandler_GetEpisodeDetails.
  apply String.eqb_neq in Htitle. rewrite Htitle.
  assert (String.eqb seasonStr "" = false) as ->.
  { apply String.eqb_neq. intros ->. by vm_compute in Hseason. }
  assert (String.eqb episodeStr "" = false) as ->.
  { apply String.eqb_neq. intros ->. by vm_compute in Hepisode. }
  simpl. rewrite Hseason, Hepisode. unfold bind, ret.
  pose proof (GetEpisodeDetails_requests s seriesTitle season episode st) as H.
  destruct (lookupEpisode s seriesTitle season episode st)
    as [[err|details] st']; simpl in *; [done|].
  destruct (String.eqb (Response (read details)) "False"); done.
Qed.

(** X19. The episode handler answers 400 and makes no request when the
    series title is missing or when the season or the episode is not a
    decimal number of type int; otherwise it makes one request, for the
    series title and the two numbers read, and answers 500, 404 or 200
    as that lookup fails, is answered "False", or succeeds. *)
Theorem GetEpisodeDetails_validation
    (s : OMDbService) (seriesTitle seasonStr episodeStr : string)
    (st : State World) :
  (seriesTitle = "" \/ (Atoi seasonStr).2 <> None \/ (Atoi episodeStr).2 <> None ->
   (episodeHandler s seriesTitle seasonStr episodeStr st).2 = st
   /\ detailStatus (episodeHandler s seriesTitle seasonStr episodeStr st).1
      = StatusBadRequest)
  /\ (seriesTitle <> "" -> (Atoi seasonStr).2 = None -> (Atoi episodeStr).2 = None ->
      requestsOf (episodeHandler s seriesTitle seasonStr episodeStr st).2
      = requestsOf st
        ++ [episodeURL s seriesTitle (Atoi seasonStr).1 (Atoi episodeStr).1]
      /\ detailStatus (episodeHandler s seriesTitle seasonStr episodeStr st).1
         = match (lookupEpisode s seriesTitle (Atoi seasonStr).1
                    (Atoi episodeStr).1 st).1 with
           | inl _ => StatusInternalServerError
           | inr details =>
               if String.eqb (Response (read details)) "False"
               then StatusNotFound else StatusOK
           end).
Proof.
  split; [apply episodeHandler_rejects|].
  intros Htitle Hseason Hepisode. apply episodeHandler_accepts; [done|..].
  - destruct (Atoi seasonStr); simpl in *; by subst.
  - destruct (Atoi episodeStr); simpl in *; by subst.
Qed.


End DetailFacts.

(** ** Start-up *)


(** ** The added properties against the scripted provider *)

Lemma searchMovies_requests_witness :
  requests Demo.World
    (Demo.searchByGenre "Crime" "Crime"
       (Demo.start [Body "one hit"; Body "ronin"])).2
  = [searchURL Demo.service "Crime"; lookupURL Demo.service "Ronin"].
Proof.
  exact (searchMovies_requests strings.ToLowerASCII Demo.World Demo.ClientGet
           Demo.UnmarshalOMDb Demo.UnmarshalSearch Demo.service "Crime" "Crime"
           (Demo.start [Body "one hit"; Body "ronin"])
           {| world := [Body "ronin"];
              requests := [searchURL Demo.service "Crime"] |}
           _ eq_refl).
Defined.

Lemma searchMovies_results_match_genre_witness :
  (length [briefOf Demo.ronin] <= 1)%nat
  /\ Forall (fun m => strings.Contains (strings.ToLowerASCII (mb_Genre m))
                        (strings.ToLowerASCII "Crime") = true)
            [briefOf Demo.ronin].
Proof.
  exact (searchMovies_results_match_genre strings.ToLowerASCII Demo.World
           Demo.ClientGet Demo.UnmarshalOMDb Demo.UnmarshalSearch Demo.service
           "Crime" "Crime"
           (Demo.start [Body "one hit"; Body "ronin"])
           {| world := [Body "ronin"];
              requests := [searchURL Demo.service "Crime"] |}
           {| world := [];
              requests := [searchURL Demo.service "Crime";
                           lookupURL Demo.service "Ronin"] |}
           _ [briefOf Demo.ronin] eq_refl eq_refl).
Defined.

(** The one hit is the title to exclude, in other letters: no lookup. *)
Lemma searchMoviesForRecommendation_requests_witness :
  requests Demo.World
    (Sample.searchForRecommendation "Crime" "RONIN"
       (Demo.start [Body "one hit"; Body "ronin"])).2
  = [searchURL Demo.service "Crime"].
Proof.
  exact (searchMoviesForRecommendation_requests strings.EqualFoldASCII
           Demo.World Demo.ClientGet Demo.UnmarshalOMDb Demo.UnmarshalSearch
           Demo.service "Crime" "RONIN"
           (Demo.start [Body "one hit"; Body "ronin"])
           {| world := [Body "ronin"];
              requests := [searchURL Demo.service "Crime"] |}
           _ eq_refl).
Defined.

Lemma SearchMoviesByGenre_returns_ranked_set_witness :
  (length [briefOf Demo.ronin] <= 15)%nat
  /\ ratingsNonIncreasing strconv.ParseFloat [briefOf Demo.ronin]
  /\ NoDup (canonicalKey strings.ToLowerASCII <$> [briefOf Demo.ronin])
  /\ Forall (fun m => genreMatches strings.ToLowerASCII "Crime"
                        strconv.ParseFloat m = true)
            [briefOf Demo.ronin].
Proof.
  apply (SearchMoviesByGenre_returns_ranked_set strings.ToLowerASCII
           strconv.ParseFloat (@sort.SliceShort MovieBrief) Demo.World
           Demo.ClientGet Demo.UnmarshalOMDb Demo.UnmarshalSearch Demo.service
           "Crime" (Demo.start [Body "one hit"; Body "ronin"])
           [briefOf Demo.ronin] SliceShort_permutes SliceShort_is_sorting).
  vm_compute. reflexivity.
Defined.

Lemma GetMovieRecommendations_search_terms_witness :
  issuedTerms
    (Demo.recommend "Heat"
       (Demo.start [Body "heat"; Body "one hit"; Body "ronin";
                    Body "no results"])).2
  = ["Crime"; "Drama"].
Proof.
  exact (GetMovieRecommendations_search_terms strings.ToLowerASCII
           strings.EqualFoldASCII strconv.ParseFloat
           (@sort.SliceShort MovieBrief) Demo.World Demo.ClientGet
           Demo.UnmarshalOMDb Demo.UnmarshalSearch Demo.service "Heat"
           (Demo.start [Body "heat"; Body "one hit"; Body "ronin";
                        Body "no results"])
           {| world := [Body "one hit"; Body "ronin"; Body "no results"];
              requests := [lookupURL Demo.service "Heat"] |}
           Demo.heat eq_refl
           (fun H : Response Demo.heat = "False" =>
              eq_ind "True" (fun v => if String.eqb v "False" then False else True)
                     I "False" H)).
Defined.

Lemma GetMovieRecommendations_tiers_witness :
  exists (response : RecommendationResponse) (st' : State Demo.World),
    Demo.recommend "Heat"
      (Demo.start [Body "heat"; Body "one hit"; Body "ronin"; Body "no results"])
    = (inr response, st')
    /\ StronglySorted Z.lt (Level <$> Recommendations response)
    /\ Forall (fun tier =>
                 1 <= Z.of_nat (length (Movies tier)) <= 20
                 /\ NoDup (canonicalKey strings.ToLowerASCII <$> Movies tier))
              (Recommendations response).
Proof.
  destruct (Demo.recommend "Heat"
              (Demo.start [Body "heat"; Body "one hit"; Body "ronin";
                           Body "no results"]))
    as [[err|response] st'] eqn:Hrun; [by vm_compute in Hrun|].
  exists response, st'. split; [reflexivity|].
  destruct (GetMovieRecommendations_tiers strings.ToLowerASCII
              strings.EqualFoldASCII strconv.ParseFloat
              (@sort.SliceShort MovieBrief)
              Demo.World Demo.ClientGet Demo.UnmarshalOMDb Demo.UnmarshalSearch
              Demo.service "Heat"
              (Demo.start [Body "heat"; Body "one hit"; Body "ronin";
                           Body "no results"])
              st' response Hrun)
    as (_ & Hlevels & Htiers).
  split; [exact Hlevels|].
  eapply Forall_impl; [exact Htiers|]. intros tier (_ & Hlen & Hkeys & _).
  by split.
Defined.

(** The seed is found and every search after it fails: still 200. *)
Lemma GetMovieRecommendations_status_witness :
  statusOf (Demo.recommendHandler "Heat" (Demo.start [Body "heat"])).1
  = StatusOK.
Proof.
  exact (GetMovieRecommendations_status strings.ToLowerASCII
           strings.EqualFoldASCII strconv.ParseFloat
           (@sort.SliceShort MovieBrief)
           Demo.World Demo.ClientGet Demo.UnmarshalOMDb Demo.UnmarshalSearch
           Demo.service "Heat" (Demo.start [Body "heat"])
           {| world := []; requests := [lookupURL Demo.service "Heat"] |}
           (inr Demo.heat)
           (fun H : "Heat" = "" =>
              eq_ind "Heat" (fun v => if String.eqb v "" then False else True)
                     I "" H)
           eq_refl).
Defined.


Lemma GetEpisodeDetails_validation_witness :
  (Sample.episodeHandler "Breaking Bad" "one" "1" (Demo.start [Body "pilot"])).2
  = Demo.start [Body "pilot"]
  /\ detailStatus
       (Sample.episodeHandler "Breaking Bad" "one" "1"
          (Demo.start [Body "pilot"])).1
     = StatusBadRequest.
Proof.
  apply (GetEpisodeDetails_validation Demo.World Demo.ClientGet
           Sample.UnmarshalRecord Demo.service "Breaking Bad" "one" "1"
           (Demo.start [Body "pilot"])).
  right. left. discriminate.
Defined.

